(** * key_code: terminal key decoding in raw mode

    A shallow embedding of [key_code.cpp] (the program) and of the earlier
    [raw_keyboard.h] (module [RawKeyboardH]), with the properties of the
    escape-sequence decoder in [main]'s loop and of the raw-mode toggling.

    The process is modelled by explicit state passing over a [world]: the
    terminal's settings and its future input, the globals of the program, the
    registered exit handlers and everything written by [printf]. *)

From Stdlib Require Import ZArith Ascii Lia.
From stdpp Require Import base list vector strings gmap.

Local Open Scope Z_scope.

(* Updates of [c_cc] stay folded, for [vlookup_insert]. *)
Local Arguments vinsert : simpl never.

(** ** Characters *)

Definition NUL : ascii := "000"%char.
Definition ESC_CHAR : ascii := "027"%char.

(** ** <termios.h>: the constants of Linux (asm-generic/termbits.h) *)

Module Termbits.
Definition NCCS : nat := 32.
Definition VTIME : fin NCCS := 5%fin.
Definition VMIN : fin NCCS := 6%fin.
(* c_iflag *)
Definition IGNBRK : Z := 0x1.
Definition BRKINT : Z := 0x2.
Definition PARMRK : Z := 0x8.
Definition ISTRIP : Z := 0x20.
Definition INLCR : Z := 0x40.
Definition IGNCR : Z := 0x80.
Definition ICRNL : Z := 0x100.
Definition IXON : Z := 0x400.
(* c_oflag *)
Definition OPOST : Z := 0x1.
(* c_cflag *)
Definition CSIZE : Z := 0x30.
Definition CS8 : Z := 0x30.
Definition PARENB : Z := 0x100.
(* c_lflag *)
Definition ISIG : Z := 0x1.
Definition ICANON : Z := 0x2.
Definition ECHO : Z := 0x8.
Definition ECHONL : Z := 0x40.
Definition IEXTEN : Z := 0x8000.
End Termbits.
Import Termbits.

(** ** struct termios

    The flag words are [tcflag_t] (unsigned, 32 bits); [c_cc] is an array of
    [NCCS] control characters. *)

Record termios := Termios {
  c_iflag : Z;
  c_oflag : Z;
  c_cflag : Z;
  c_lflag : Z;
  c_cc : vec Z NCCS
}.

(** [flags &= ~(mask)] on a [tcflag_t]: the complement is taken on [int] and
    converted to the unsigned 32-bit type of the flag word. *)
Definition clear_flags (flags mask : Z) : Z :=
  Z.land flags (Z.lnot mask mod 2 ^ 32).

(** [flags |= mask]. *)
Definition set_flags (flags mask : Z) : Z := Z.lor flags mask.

(** [cfmakeraw] of the C library, as termios(3) documents it (the program
    quotes the same assignments next to its call). *)
Definition cfmakeraw (t : termios) : termios :=
  {| c_iflag := clear_flags (c_iflag t)
       (Z.lor IGNBRK (Z.lor BRKINT (Z.lor PARMRK (Z.lor ISTRIP
         (Z.lor INLCR (Z.lor IGNCR (Z.lor ICRNL IXON)))))));
     c_oflag := clear_flags (c_oflag t) OPOST;
     c_cflag := set_flags (clear_flags (c_cflag t) (Z.lor CSIZE PARENB)) CS8;
     c_lflag := clear_flags (c_lflag t)
       (Z.lor ECHO (Z.lor ECHONL (Z.lor ICANON (Z.lor ISIG IEXTEN))));
     c_cc := vinsert VTIME 0 (vinsert VMIN 1 (c_cc t)) |}.

(** ** The virtual key codes: [enum class vkey_t : u_int8_t] of key_code.cpp *)

Inductive vkey_t :=
| none | F1 | F2 | F3 | F4 | F5 | F6 | F7 | F8 | F9 | F10 | F11 | F12
| HOME | END | UP_ARROW | DOWN_ARROW | LEFT_ARROW | RIGHT_ARROW
| PAGE_UP | PAGE_DOWN | INSERT | DELETE | ESC | BACKSPACE | ENTER | TAB.

Global Instance vkey_t_eq_dec : EqDecision vkey_t.
Proof. solve_decision. Defined.

(** The enumerator values, as [static_cast<u_int16_t>(vk)] prints them. *)
Definition vkey_code (vk : vkey_t) : Z :=
  match vk with
  | none => 0 | F1 => 1 | F2 => 2 | F3 => 3 | F4 => 4 | F5 => 5 | F6 => 6
  | F7 => 7 | F8 => 8 | F9 => 9 | F10 => 10 | F11 => 11 | F12 => 12
  | HOME => 13 | END => 14 | UP_ARROW => 15 | DOWN_ARROW => 16
  | LEFT_ARROW => 17 | RIGHT_ARROW => 18 | PAGE_UP => 19 | PAGE_DOWN => 20
  | INSERT => 21 | DELETE => 22 | ESC => 23 | BACKSPACE => 24 | ENTER => 25
  | TAB => 26
  end.

Inductive raw_mode_t := immediate_no_echo | immediate_no_echo_ignore_signals.

(** ** The process and its terminal *)

(** What the terminal will deliver on standard input, in order: a byte, an
    idle interval that outlasts one poll window ([VTIME] = 1, a tenth of a
    second), or a condition that makes the next [read] fail. *)
Inductive tty_item :=
| Key (b : ascii)
| Pause
| Fault.

(** The functions registered with [atexit]. *)
Inductive exit_fn := fn_disable_raw_mode.

(** Every [printf] of the program, with its arguments. *)
Inductive output :=
| out_orig_termios (vmin vtime : Z)  (* "orig_termios(%x %x)\n" *)
| out_text (rows columns : Z)        (* "text(%d %d)\n" *)
| out_ruler (ch : ascii)             (* "%c", one column of the ruler *)
| out_star                           (* "*\n" *)
| out_rdret (rdret : Z)              (* "%lu)\n" *)
| out_rdret_arrow (rdret : Z)        (* "%lu->" *)
| out_key_seq (key_sequence : string) (* "key seq - " and " 0x%x " per char *)
| out_vk (vk : vkey_t)               (* "vk        input - %hu\n" *)
| out_character (ch : ascii).        (* "character input - %c\n" *)

(** One call of read(2) on standard input: the discipline the terminal was
    in, the count asked for and the value returned. *)
Record read_call := ReadCall {
  rc_blocking : bool;
  rc_count : nat;
  rc_ret : Z
}.

Record world := World {
  (* the terminal *)
  tty_termios : termios;
  tty_input : list tty_item;
  ws_row : Z;
  ws_col : Z;
  (* the globals of key_code.cpp *)
  orig_termios : termios;
  bset_exit : bool;
  (* the C runtime *)
  atexit_fns : list exit_fn;
  stdout : list output;
  (* ghost: the reads performed so far *)
  reads : list read_call
}.

Definition set_tty (t : termios) (inp : list tty_item) (w : world) : world :=
  {| tty_termios := t; tty_input := inp; ws_row := ws_row w; ws_col := ws_col w;
     orig_termios := orig_termios w; bset_exit := bset_exit w;
     atexit_fns := atexit_fns w; stdout := stdout w; reads := reads w |}.

Definition set_orig_termios (t : termios) (w : world) : world :=
  {| tty_termios := tty_termios w; tty_input := tty_input w;
     ws_row := ws_row w; ws_col := ws_col w;
     orig_termios := t; bset_exit := bset_exit w;
     atexit_fns := atexit_fns w; stdout := stdout w; reads := reads w |}.

Definition set_bset_exit (b : bool) (w : world) : world :=
  {| tty_termios := tty_termios w; tty_input := tty_input w;
     ws_row := ws_row w; ws_col := ws_col w;
     orig_termios := orig_termios w; bset_exit := b;
     atexit_fns := atexit_fns w; stdout := stdout w; reads := reads w |}.

Definition log_read (r : read_call) (w : world) : world :=
  {| tty_termios := tty_termios w; tty_input := tty_input w;
     ws_row := ws_row w; ws_col := ws_col w;
     orig_termios := orig_termios w; bset_exit := bset_exit w;
     atexit_fns := atexit_fns w; stdout := stdout w;
     reads := reads w ++ [r] |}.

(** ** The C library and the kernel, as far as the program uses them *)

Definition printf (o : output) (w : world) : world :=
  {| tty_termios := tty_termios w; tty_input := tty_input w;
     ws_row := ws_row w; ws_col := ws_col w;
     orig_termios := orig_termios w; bset_exit := bset_exit w;
     atexit_fns := atexit_fns w; stdout := stdout w ++ [o];
     reads := reads w |}.

Definition atexit (f : exit_fn) (w : world) : world :=
  {| tty_termios := tty_termios w; tty_input := tty_input w;
     ws_row := ws_row w; ws_col := ws_col w;
     orig_termios := orig_termios w; bset_exit := bset_exit w;
     atexit_fns := atexit_fns w ++ [f]; stdout := stdout w;
     reads := reads w |}.

Definition tcgetattr (w : world) : termios := tty_termios w.

Inductive optional_actions := TCSANOW | TCSAFLUSH.

(** Input that was received but not read: the bytes at the head of the
    stream. [TCSAFLUSH] discards them before the change is made. *)
Fixpoint discard_received (inp : list tty_item) : list tty_item :=
  match inp with
  | Key _ :: rest => discard_received rest
  | _ => inp
  end.

Definition tcsetattr (act : optional_actions) (t : termios) (w : world) : world :=
  set_tty t
    (match act with
     | TCSANOW => tty_input w
     | TCSAFLUSH => discard_received (tty_input w)
     end) w.

Fixpoint skip_pauses (inp : list tty_item) : list tty_item :=
  match inp with
  | Pause :: rest => skip_pauses rest
  | _ => inp
  end.

(** The bytes available now, up to [count] of them. *)
Fixpoint received (count : nat) (inp : list tty_item) : list ascii :=
  match count, inp with
  | S count', Key b :: rest => b :: received count' rest
  | _, _ => []
  end.

(** One non-canonical read of up to [count] bytes. Blocking ([VMIN] = 1,
    [VTIME] = 0): waits through idle intervals until a byte is there; at the
    end of the input the read returns 0. Timeout-bounded ([VMIN] = 0,
    [VTIME] = 1): returns 0 when the poll window passes idle, otherwise what
    is there, up to [count]. A failing read returns -1. The result is the
    return value, the bytes stored and the input that remains. *)
Definition deliver (blocking : bool) (count : nat) (inp : list tty_item)
  : Z * list ascii * list tty_item :=
  match (if blocking then skip_pauses inp else inp) with
  | [] => (0, [], [])
  | Fault :: rest => (-1, [], rest)
  | Pause :: rest => (0, [], rest)
  | Key b :: rest =>
      let data := received count (Key b :: rest) in
      (Z.of_nat (length data), data, drop (length data) (Key b :: rest))
  end.

(** The memory behind a [char *] after [data] was stored at its start. *)
Definition store (ptr data : list ascii) : list ascii :=
  data ++ drop (length data) ptr.

(** [read(STDIN_FILENO, ptr, count)]: the discipline is the one the terminal
    is in. Returns the [ssize_t] and the memory behind [ptr]. *)
Definition sys_read (ptr : list ascii) (count : nat) (w : world)
  : world * Z * list ascii :=
  let blocking := 0 <? c_cc (tty_termios w) !!! VMIN in
  let '(ret, data, rest) := deliver blocking count (tty_input w) in
  (set_tty (tty_termios w) rest (log_read (ReadCall blocking count ret) w),
   ret, store ptr data).

(** ** key_code.cpp: raw mode *)

Definition disable_raw_mode (w : world) : world :=
  tcsetattr TCSAFLUSH (orig_termios w) w.

Definition with_c_lflag (f : Z) (t : termios) : termios :=
  {| c_iflag := c_iflag t; c_oflag := c_oflag t; c_cflag := c_cflag t;
     c_lflag := f; c_cc := c_cc t |}.

Definition with_c_cc (cc : vec Z NCCS) (t : termios) : termios :=
  {| c_iflag := c_iflag t; c_oflag := c_oflag t; c_cflag := c_cflag t;
     c_lflag := c_lflag t; c_cc := cc |}.

Definition enable_raw_mode (wait_for_input : bool) (mode : raw_mode_t)
    (w : world) : world :=
  let w :=
    if negb (bset_exit w) then
      let w := atexit fn_disable_raw_mode w in
      let w := set_orig_termios (tcgetattr w) w in
      let w := printf (out_orig_termios (c_cc (orig_termios w) !!! VMIN)
                                        (c_cc (orig_termios w) !!! VTIME)) w in
      set_bset_exit true w
    else w in
  let raw := tcgetattr w in
  let raw :=
    match mode with
    | immediate_no_echo =>
        with_c_lflag (clear_flags (c_lflag raw) (Z.lor ECHO ICANON)) raw
    | immediate_no_echo_ignore_signals => cfmakeraw raw
    end in
  let raw :=
    if wait_for_input
    then with_c_cc (vinsert VTIME 0 (vinsert VMIN 1 (c_cc raw))) raw
    else with_c_cc (vinsert VTIME 1 (vinsert VMIN 0 (c_cc raw))) raw in
  tcsetattr TCSANOW raw w.

(** [std::size_t read_raw(char *ptr, bool bwait_for_key = true,
    std::size_t ptr_size = 1)]: the [ssize_t] of [read] is converted to
    [std::size_t] (64 bits). *)
Definition read_raw (ptr : list ascii) (bwait_for_key : bool) (ptr_size : nat)
    (w : world) : world * Z * list ascii :=
  let w := enable_raw_mode bwait_for_key immediate_no_echo w in
  let '(w, ret, ptr) := sys_read ptr ptr_size w in
  (w, ret mod 2 ^ 64, ptr).

(** ** key_code.cpp: the key map of [main] *)

(** A string literal that starts with ["\x1b"]. *)
Definition esc (rest : string) : string := String ESC_CHAR rest.

(** The initializer list of [virtual_key_map], in the order of the source. *)
Definition virtual_key_entries : list (string * vkey_t) :=
  [ (esc "", ESC);            (esc "[OQ", F2);
    (esc "[OR", F3);          (esc "[OS", F4);
    (esc "[15~", F5);         (esc "[17~", F6);
    (esc "[18~", F7);         (esc "[19~", F8);
    (esc "[20~", F9);         (esc "[H", HOME);
    (esc "[F", END);          (esc "[A", UP_ARROW);
    (esc "[B", DOWN_ARROW);   (esc "[C", RIGHT_ARROW);
    (esc "[D", LEFT_ARROW);   (esc "[5~", PAGE_UP);
    (esc "[6~", PAGE_DOWN);   (esc "[2~", INSERT);
    (esc "[3~", DELETE);      (String "127" "", BACKSPACE);
    (String "010" "", ENTER); (String "009" "", TAB) ].

(** [std::unordered_map<std::string, vkey_t>]: of two entries with one key
    the constructor keeps the first, as [list_to_map] does. *)
Definition virtual_key_map : gmap string vkey_t :=
  list_to_map virtual_key_entries.

(** ** key_code.cpp: the loop of [main] *)

(** [std::string::append] of a [const char] pointer: the characters before the first
    NUL of the buffer. *)
Fixpoint c_str (buffer : list ascii) : string :=
  match buffer with
  | [] => ""
  | b :: rest => if Ascii.eqb b NUL then "" else String b (c_str rest)
  end.

Definition push_back (s : string) (ch : ascii) : string := s +:+ String ch "".

(** The first half of the loop body: [key_sequence] after the reads that
    follow an escape character. *)
Definition accumulate (c : ascii) (w : world) : world * string :=
  let key_sequence := push_back "" c in
  if Ascii.eqb c ESC_CHAR then
    let '(w, rdret, ptr) := read_raw [NUL] false 1 w in
    let immediate_next := hd NUL ptr in
    let w := printf (out_rdret rdret) w in
    if rdret =? 1 then
      let key_sequence := push_back key_sequence immediate_next in
      let w := printf (out_rdret_arrow rdret) w in
      let '(w, _, buffer) := read_raw (replicate 11 NUL) false 10 w in
      (w, key_sequence +:+ c_str buffer)
    else (w, key_sequence)
  else (w, key_sequence).

(** The second half: the filter through the key map and the dispatch of
    [vk] or of the characters of [key_sequence]. [vk] is assigned on both
    branches before it is read, so its value from the previous turn of the
    loop is never seen. *)
Definition dispatch (key_sequence : string) (w : world) : world :=
  let '(w, vk, key_sequence) :=
    match virtual_key_map !! key_sequence with
    | Some v => (printf (out_key_seq key_sequence) w, v, "")
    | None => (w, none, key_sequence)
    end in
  if decide (vk ≠ none) then printf (out_vk vk) w
  else foldl (λ w ch, printf (out_character ch) w) w
             (String.list_ascii_of_string key_sequence).

Definition loop_body (c : ascii) (w : world) : world :=
  let '(w, key_sequence) := accumulate c w in
  dispatch key_sequence w.

(** The condition of the loop, [read_raw(&c) == 1 && c != 'q']: the new
    value of [c] and whether the body runs. *)
Definition loop_guard (c : ascii) (w : world) : world * ascii * bool :=
  let '(w, ret, ptr) := read_raw [c] true 1 w in
  let c := hd c ptr in
  (w, c, (ret =? 1) && negb (Ascii.eqb c "q")).

(** One turn of the loop: the blocking read of the first byte, the test and
    the body. The flag tells whether the loop goes on. *)
Definition next_event (c : ascii) (w : world) : world * ascii * bool :=
  let '(w, c, go) := loop_guard c w in
  if go then (loop_body c w, c, true) else (w, c, false).

Fixpoint main_loop (fuel : nat) (c : ascii) (w : world) : option world :=
  match fuel with
  | O => None
  | S fuel =>
      let '(w, c, go) := next_event c w in
      if go then main_loop fuel c w else Some w
  end.

Definition EXIT_SUCCESS : Z := 0.

(** [get_console_size]: [ws_row] and [ws_col] of the window, as
    [u_int16_t]. *)
Definition get_console_size (w : world) : Z * Z :=
  (ws_row w mod 2 ^ 16, ws_col w mod 2 ^ 16).

(** The start of [main]: the size of the window and the ruler under it. *)
Definition print_size_and_ruler (w : world) : world :=
  let '(rows, columns) := get_console_size w in
  let w := printf (out_text rows columns) w in
  let w := foldl (λ w i, printf (out_ruler (ascii_of_nat (i mod 10 + 48))) w) w
                 (seq 0 (Z.to_nat (columns - 1))) in
  printf out_star w.

(** [main]: the size and the ruler, the loop, the restoration of the
    terminal. [None] when [fuel] turns of the loop were not enough. *)
Definition main (fuel : nat) (w : world) : option (world * Z) :=
  let w := print_size_and_ruler w in
  match main_loop fuel NUL w with
  | Some w => Some (disable_raw_mode w, EXIT_SUCCESS)
  | None => None
  end.

(** The handlers of [atexit] run when the process exits, the last registered
    first. *)
Definition call_exit_fn (f : exit_fn) (w : world) : world :=
  match f with fn_disable_raw_mode => disable_raw_mode w end.

Definition run_atexit (w : world) : world :=
  foldl (λ w f, call_exit_fn f w) w (reverse (atexit_fns w)).

(** ** Events: what the loop dispatches *)

Inductive input_event :=
| Character (ch : ascii)
| KeyPress (vk : vkey_t).

Definition event_of (o : output) : option input_event :=
  match o with
  | out_vk vk => Some (KeyPress vk)
  | out_character ch => Some (Character ch)
  | _ => None
  end.

Definition events (out : list output) : list input_event := omap event_of out.

(** The bytes taken from the terminal by a list of reads. *)
Definition bytes_read (rs : list read_call) : Z :=
  foldr (λ r acc, Z.max 0 (rc_ret r) + acc) 0 rs.

(** A process at its start: the globals are zero-initialised, nothing is
    registered, nothing was written or read. *)
Definition zero_termios : termios :=
  {| c_iflag := 0; c_oflag := 0; c_cflag := 0; c_lflag := 0;
     c_cc := vreplicate NCCS 0 |}.

Definition start (t : termios) (inp : list tty_item) (rows columns : Z) : world :=
  {| tty_termios := t; tty_input := inp; ws_row := rows; ws_col := columns;
     orig_termios := zero_termios; bset_exit := false;
     atexit_fns := []; stdout := []; reads := [] |}.

(** A terminal in its usual cooked mode. *)
Definition cooked : termios :=
  {| c_iflag := 0x500; c_oflag := 0x5; c_cflag := 0xbf; c_lflag := 0x8a3b;
     c_cc := vinsert VMIN 1 (vreplicate NCCS 0) |}.

Definition keys (s : string) : list tty_item :=
  Key <$> String.list_ascii_of_string s.

(** ** raw_keyboard.h: the earlier raw mode *)

Module RawKeyboardH.

(** [enum class vkey_t : u_int8_t] of raw_keyboard.h: no [none] and no
    [ESC], but the print-screen and pause keys. *)
Inductive vkey_t :=
| F1 | F2 | F3 | F4 | F5 | F6 | F7 | F8 | F9 | F10 | F11 | F12
| HOME | UP_ARROW | PAGE_UP | LEFT_ARROW | RIGHT_ARROW | END | DOWN_ARROW
| PAGE_DOWN | INSERT | DELETE | PRINT_SCREEN | PAUSE_BREAK | BACKSPACE
| ENTER | TAB.

Definition disable_raw_mode (w : world) : world :=
  tcsetattr TCSAFLUSH (orig_termios w) w.

(** [void enable_raw_mode(raw_mode_t mode)]: every call saves the settings
    of the terminal and registers the handler. *)
Definition enable_raw_mode (mode : raw_mode_t) (w : world) : world :=
  let w := set_orig_termios (tcgetattr w) w in
  let w := atexit fn_disable_raw_mode w in
  let raw := orig_termios w in
  let raw :=
    match mode with
    | immediate_no_echo =>
        with_c_lflag (clear_flags (c_lflag raw) (Z.lor ECHO ICANON)) raw
    | immediate_no_echo_ignore_signals =>
        {| c_iflag := clear_flags (c_iflag raw) (Z.lor ICRNL IXON);
           c_oflag := clear_flags (c_oflag raw) OPOST;
           c_cflag := c_cflag raw;
           c_lflag := clear_flags (c_lflag raw)
                        (Z.lor ECHO (Z.lor ICANON (Z.lor IEXTEN ISIG)));
           c_cc := c_cc raw |}
    end in
  tcsetattr TCSAFLUSH raw w.

End RawKeyboardH.

(** §4.2 of the specification: the table as it is enumerated there, to be
    compared with the initializer list of the source. *)
Definition sequence_table_spec : list (string * vkey_t) :=
  [ (esc "", ESC); (esc "[OQ", F2); (esc "[OR", F3); (esc "[OS", F4);
    (esc "[15~", F5); (esc "[17~", F6); (esc "[18~", F7); (esc "[19~", F8);
    (esc "[20~", F9); (esc "[H", HOME); (esc "[F", END);
    (esc "[A", UP_ARROW); (esc "[B", DOWN_ARROW); (esc "[C", RIGHT_ARROW);
    (esc "[D", LEFT_ARROW); (esc "[5~", PAGE_UP); (esc "[6~", PAGE_DOWN);
    (esc "[2~", INSERT); (esc "[3~", DELETE);
    (String "127" "", BACKSPACE); (String "010" "", ENTER);
    (String "009" "", TAB) ].


(** ** The loop seen from the input stream

    [key_sequence_of], [dispatch_events] and [turn] summarise a turn of the
    loop by what it takes from the stream and what it dispatches; the
    lemmas [accumulate_stream], [dispatch_stream] and [next_event_stream]
    show that the program does exactly that. *)

Definition key_sequence_of (c : ascii) (inp : list tty_item)
  : string * list tty_item * list read_call :=
  if Ascii.eqb c ESC_CHAR then
    let '(ret, data, rest) := deliver false 1 inp in
    if ret mod 2 ^ 64 =? 1 then
      let '(ret', data', rest') := deliver false 10 rest in
      (push_back (push_back "" c) (hd NUL (store [NUL] data))
         +:+ c_str (store (replicate 11 NUL) data'),
       rest', [ReadCall false 1 ret; ReadCall false 10 ret'])
    else (push_back "" c, rest, [ReadCall false 1 ret])
  else (push_back "" c, inp, []).

Definition dispatch_events (key_sequence : string) : list input_event :=
  match virtual_key_map !! key_sequence with
  | Some v => if decide (v ≠ none) then [KeyPress v] else []
  | None => Character <$> String.list_ascii_of_string key_sequence
  end.

Record turn_result := TurnResult {
  tr_c : ascii;
  tr_go : bool;
  tr_events : list input_event;
  tr_rest : list tty_item;
  tr_reads : list read_call
}.

Definition turn (c : ascii) (inp : list tty_item) : turn_result :=
  let '(ret, data, rest) := deliver true 1 inp in
  let c := hd c (store [c] data) in
  if (ret mod 2 ^ 64 =? 1) && negb (Ascii.eqb c "q") then
    let '(key_sequence, rest', rs) := key_sequence_of c rest in
    TurnResult c true (dispatch_events key_sequence) rest'
               (ReadCall true 1 ret :: rs)
  else TurnResult c false [] rest [ReadCall true 1 ret].

(** The input goes idle: nothing more arrives, or a pause comes first. *)
Definition idle (rest : list tty_item) : Prop :=
  rest = [] ∨ ∃ rest', rest = Pause :: rest'.


(** What the process is bound to restore: the saved settings once raw mode
    was entered, the settings of the terminal before that; and the handlers
    it is bound to have registered by then. *)
Definition to_restore (w : world) : termios :=
  if bset_exit w then orig_termios w else tty_termios w.

Definition handlers_due (w : world) : list exit_fn :=
  if bset_exit w then atexit_fns w else atexit_fns w ++ [fn_disable_raw_mode].

(** ** Views used by the further properties *)

(** The bytes of an input stream, in order, without the pauses and the
    failures between them. *)
Definition bytes_of (inp : list tty_item) : list ascii :=
  omap (λ i, match i with Key b => Some b | _ => None end) inp.

(** A key press as the terminal sends it: a key of the map, whose sequence
    is followed by idle time, or an ordinary byte. *)
Inductive keystroke :=
| Special (s : string) (vk : vkey_t)
| Plain (b : ascii).

Definition typed (k : keystroke) : list tty_item :=
  match k with
  | Special s _ => keys s ++ [Pause]
  | Plain b => [Key b]
  end.

Definition meant (k : keystroke) : input_event :=
  match k with
  | Special _ vk => KeyPress vk
  | Plain b => Character b
  end.

Definition on_keyboard (k : keystroke) : Prop :=
  match k with
  | Special s vk => virtual_key_map !! s = Some vk
  | Plain b => b ∉ [ESC_CHAR; "q"%char; "127"%char; "010"%char; "009"%char]
  end.


(** * Properties *)

(** ** The kernel read *)

Lemma length_received count inp : (length (received count inp) ≤ count)%nat.
Proof.
  revert inp. induction count as [|count IH]; intros [|[b| |] inp]; simpl; try lia.
  specialize (IH inp). lia.
Qed.

Lemma length_skip_pauses inp : (length (skip_pauses inp) ≤ length inp)%nat.
Proof. induction inp as [|[b| |] inp IH]; simpl; lia. Qed.

(** What a read returns: -1 and nothing stored, or the number of bytes
    stored, which is at most the count asked for. *)
Lemma deliver_ret blocking count inp ret data rest :
  deliver blocking count inp = (ret, data, rest) →
  (ret = -1 ∧ data = []) ∨
  (ret = Z.of_nat (length data) ∧ (length data ≤ count)%nat).
Proof.
  unfold deliver.
  destruct (if blocking then skip_pauses inp else inp) as [|[b| |] inp'];
    intros [= <- <- <-]; auto; right; (split; [reflexivity|]);
    try (simpl; lia).
  apply length_received.
Qed.

(** The input never grows, and it shrinks when a byte is returned. *)
Lemma deliver_rest blocking count inp ret data rest :
  deliver blocking count inp = (ret, data, rest) →
  (length rest ≤ length inp)%nat ∧ (0 < ret → (length rest < length inp)%nat).
Proof.
  unfold deliver.
  assert (Hle : (length (if blocking then skip_pauses inp else inp) ≤ length inp)%nat).
  { destruct blocking; [apply length_skip_pauses | lia]. }
  destruct (if blocking then skip_pauses inp else inp) as [|[b| |] inp'];
    intros [= <- <- <-]; simpl in *; try (split; lia).
  rewrite length_drop. destruct count as [|count]; simpl; split; lia.
Qed.

(** The conversion to [std::size_t] loses nothing of a return value of 0 or
    more; -1 becomes the largest value of the type. *)
Lemma deliver_size_t blocking count inp ret data rest k :
  deliver blocking count inp = (ret, data, rest) →
  Z.of_nat count < 2 ^ 64 - 1 →
  0 ≤ k < 2 ^ 64 - 1 → ret mod 2 ^ 64 = k → ret = k.
Proof.
  intros Hd Hc Hk Hm. destruct (deliver_ret _ _ _ _ _ _ Hd) as [[-> _]|[-> Hle]].
  - change (-1 mod 2 ^ 64) with (2 ^ 64 - 1) in Hm. lia.
  - rewrite Z.mod_small in Hm by lia. exact Hm.
Qed.

(** ** Raw mode, field by field *)

Lemma VTIME_ne_VMIN : VTIME ≠ VMIN.
Proof. discriminate. Qed.

Lemma enable_raw_mode_input b m w :
  tty_input (enable_raw_mode b m w) = tty_input w.
Proof. unfold enable_raw_mode. destruct (bset_exit w); reflexivity. Qed.

Lemma enable_raw_mode_reads b m w : reads (enable_raw_mode b m w) = reads w.
Proof. unfold enable_raw_mode. destruct (bset_exit w); reflexivity. Qed.

Lemma enable_raw_mode_bset_exit b m w : bset_exit (enable_raw_mode b m w) = true.
Proof.
  unfold enable_raw_mode. destruct (bset_exit w) eqn:H; simpl; [exact H | reflexivity].
Qed.

Lemma enable_raw_mode_events b m w :
  events (stdout (enable_raw_mode b m w)) = events (stdout w).
Proof.
  unfold enable_raw_mode, events. destruct (bset_exit w); simpl; [reflexivity|].
  rewrite omap_app. simpl. apply app_nil_r.
Qed.

(** The discipline of the next read is the one asked for. *)
Lemma enable_raw_mode_VMIN b m w :
  c_cc (tty_termios (enable_raw_mode b m w)) !!! VMIN = if b then 1 else 0.
Proof.
  unfold enable_raw_mode.
  destruct (bset_exit w), m, b; simpl;
    (rewrite vlookup_insert_ne by apply VTIME_ne_VMIN); apply vlookup_insert.
Qed.

Lemma enable_raw_mode_VTIME b m w :
  c_cc (tty_termios (enable_raw_mode b m w)) !!! VTIME = if b then 0 else 1.
Proof.
  unfold enable_raw_mode.
  destruct (bset_exit w), m, b; simpl; apply vlookup_insert.
Qed.

(** The first call saves the settings of the terminal and registers the
    handler. *)
Lemma enable_raw_mode_first b m w :
  bset_exit w = false →
  orig_termios (enable_raw_mode b m w) = tty_termios w ∧
  atexit_fns (enable_raw_mode b m w) = atexit_fns w ++ [fn_disable_raw_mode].
Proof. intros H. unfold enable_raw_mode. rewrite H. split; reflexivity. Qed.

(** A later call leaves both alone. *)
Lemma enable_raw_mode_again b m w :
  bset_exit w = true →
  orig_termios (enable_raw_mode b m w) = orig_termios w ∧
  atexit_fns (enable_raw_mode b m w) = atexit_fns w.
Proof. intros H. unfold enable_raw_mode. rewrite H. split; reflexivity. Qed.

(** ** [read_raw] seen from the input stream *)

Lemma read_raw_spec ptr b n w ret data rest :
  deliver b n (tty_input w) = (ret, data, rest) →
  ∃ w', read_raw ptr b n w = (w', ret mod 2 ^ 64, store ptr data) ∧
        tty_input w' = rest ∧
        reads w' = reads w ++ [ReadCall b n ret] ∧
        events (stdout w') = events (stdout w).
Proof.
  intros Hd. unfold read_raw, sys_read.
  rewrite enable_raw_mode_VMIN, enable_raw_mode_input.
  replace (0 <? (if b then 1 else 0)) with b by (destruct b; reflexivity).
  rewrite Hd. eexists. split; [reflexivity|].
  cbn [tty_input reads stdout set_tty log_read].
  rewrite enable_raw_mode_reads, enable_raw_mode_events. auto.
Qed.

Lemma events_printf o w :
  events (stdout (printf o w)) =
  events (stdout w) ++ match event_of o with Some e => [e] | None => [] end.
Proof. unfold events. simpl. rewrite omap_app. simpl. destruct (event_of o); reflexivity. Qed.

Lemma accumulate_stream c w key_sequence rest rs :
  key_sequence_of c (tty_input w) = (key_sequence, rest, rs) →
  ∃ w', accumulate c w = (w', key_sequence) ∧
        tty_input w' = rest ∧
        reads w' = reads w ++ rs ∧
        events (stdout w') = events (stdout w).
Proof.
  unfold key_sequence_of, accumulate.
  destruct (Ascii.eqb c ESC_CHAR).
  2:{ intros [= <- <- <-]. exists w. rewrite app_nil_r. auto. }
  destruct (deliver false 1 (tty_input w)) as [[ret data] rest1] eqn:Hd1.
  destruct (read_raw_spec [NUL] _ _ _ _ _ _ Hd1) as (w1 & -> & Hi1 & Hr1 & He1).
  destruct (ret mod 2 ^ 64 =? 1).
  2:{ intros [= <- <- <-]. eexists. split; [reflexivity|].
      rewrite events_printf. simpl. rewrite app_nil_r. auto. }
  destruct (deliver false 10 rest1) as [[ret' data'] rest'] eqn:Hd2.
  intros [= <- <- <-].
  set (w2 := printf _ (printf _ w1)).
  assert (Hd2' : deliver false 10 (tty_input w2) = (ret', data', rest'))
    by (subst w2; simpl; congruence).
  destruct (read_raw_spec (replicate 11 NUL) _ _ _ _ _ _ Hd2')
    as (w3 & -> & Hi3 & Hr3 & He3).
  exists w3. split; [reflexivity|]. split; [assumption|]. split.
  - rewrite Hr3. subst w2. simpl. rewrite Hr1, <- app_assoc. reflexivity.
  - rewrite He3. subst w2. rewrite !events_printf. simpl.
    rewrite !app_nil_r. assumption.
Qed.

Lemma print_characters l w :
  let w' := foldl (λ w ch, printf (out_character ch) w) w l in
  tty_input w' = tty_input w ∧ reads w' = reads w ∧
  events (stdout w') = events (stdout w) ++ (Character <$> l).
Proof.
  revert w. induction l as [|ch l IH]; intros w; simpl.
  - rewrite app_nil_r. auto.
  - destruct (IH (printf (out_character ch) w)) as (Hi & Hr & He).
    rewrite Hi, Hr, He, events_printf. simpl. rewrite <- app_assoc. auto.
Qed.

Lemma dispatch_stream key_sequence w :
  tty_input (dispatch key_sequence w) = tty_input w ∧
  reads (dispatch key_sequence w) = reads w ∧
  events (stdout (dispatch key_sequence w)) =
    events (stdout w) ++ dispatch_events key_sequence.
Proof.
  unfold dispatch, dispatch_events.
  destruct (virtual_key_map !! key_sequence) as [v|]; cbv beta iota.
  - destruct (decide (v ≠ none)).
    + rewrite !events_printf. simpl. rewrite app_nil_r. auto.
    + cbn [String.list_ascii_of_string foldl].
      rewrite events_printf. simpl. rewrite !app_nil_r. auto.
  - rewrite decide_False by (intros H; apply H; reflexivity).
    apply print_characters.
Qed.

(** A turn of the loop does to the input, to the log of reads and to the
    dispatched events what [turn] says. *)
Lemma next_event_stream c w :
  ∃ w', next_event c w = (w', tr_c (turn c (tty_input w)), tr_go (turn c (tty_input w))) ∧
        tty_input w' = tr_rest (turn c (tty_input w)) ∧
        reads w' = reads w ++ tr_reads (turn c (tty_input w)) ∧
        events (stdout w') = events (stdout w) ++ tr_events (turn c (tty_input w)).
Proof.
  unfold next_event, loop_guard, turn.
  destruct (deliver true 1 (tty_input w)) as [[ret data] rest] eqn:Hd.
  destruct (read_raw_spec [c] _ _ _ _ _ _ Hd) as (w1 & -> & Hi1 & Hr1 & He1).
  destruct ((ret mod 2 ^ 64 =? 1) && negb (Ascii.eqb (hd c (store [c] data)) "q")).
  2:{ exists w1. cbn [tr_c tr_go tr_rest tr_reads tr_events].
      rewrite app_nil_r. auto. }
  destruct (key_sequence_of (hd c (store [c] data)) rest) as [[ks rest'] rs] eqn:Hk.
  rewrite <- Hi1 in Hk.
  destruct (accumulate_stream _ _ _ _ _ Hk) as (w2 & Ha & Hi2 & Hr2 & He2).
  unfold loop_body. rewrite Ha.
  destruct (dispatch_stream ks w2) as (Hi3 & Hr3 & He3).
  eexists. split; [reflexivity|]. cbn [tr_c tr_go tr_rest tr_reads tr_events].
  rewrite Hi3, Hr3, He3, Hi2, Hr2, He2, Hr1, He1, <- !app_assoc. auto.
Qed.

(** ** The loop ends *)

Lemma key_sequence_of_rest c inp :
  (length (key_sequence_of c inp).1.2 ≤ length inp)%nat.
Proof.
  unfold key_sequence_of. destruct (Ascii.eqb c ESC_CHAR); [|simpl; lia].
  destruct (deliver false 1 inp) as [[ret data] rest] eqn:Hd1.
  pose proof (deliver_rest _ _ _ _ _ _ Hd1) as [H1 _].
  destruct (ret mod 2 ^ 64 =? 1); [|simpl; lia].
  destruct (deliver false 10 rest) as [[ret' data'] rest'] eqn:Hd2.
  pose proof (deliver_rest _ _ _ _ _ _ Hd2) as [H2 _]. simpl. lia.
Qed.

(** Every turn that goes on takes at least one item from the input. *)
Lemma turn_progress c inp :
  tr_go (turn c inp) = true →
  (length (tr_rest (turn c inp)) < length inp)%nat.
Proof.
  unfold turn.
  destruct (deliver true 1 inp) as [[ret data] rest] eqn:Hd.
  destruct (ret mod 2 ^ 64 =? 1) eqn:Hret; simpl; [|discriminate].
  destruct (negb _); simpl; [|discriminate].
  pose proof (key_sequence_of_rest (hd c (store [c] data)) rest) as Hk.
  destruct (key_sequence_of _ rest) as [[ks rest'] rs]. simpl in *. intros _.
  apply Z.eqb_eq in Hret.
  assert (ret = 1) as -> by (eapply deliver_size_t; [exact Hd|simpl; lia..|exact Hret]).
  pose proof (deliver_rest _ _ _ _ _ _ Hd) as [_ H]. specialize (H ltac:(lia)). lia.
Qed.

Lemma main_loop_terminates fuel c w :
  (length (tty_input w) < fuel)%nat → is_Some (main_loop fuel c w).
Proof.
  revert c w. induction fuel as [|fuel IH]; intros c w Hlt; [lia|].
  simpl. destruct (next_event_stream c w) as (w' & -> & Hi & _ & _).
  destruct (tr_go (turn c (tty_input w))) eqn:Hgo; [|eauto].
  apply IH. rewrite Hi. apply turn_progress in Hgo. lia.
Qed.

(** More fuel does not change the result. *)
Lemma main_loop_fuel fuel fuel' c w w' :
  main_loop fuel c w = Some w' → (fuel ≤ fuel')%nat →
  main_loop fuel' c w = Some w'.
Proof.
  revert fuel' c w. induction fuel as [|fuel IH]; intros fuel' c w; [discriminate|].
  destruct fuel' as [|fuel']; [lia|]. simpl.
  destruct (next_event c w) as [[w1 c1] [|]]; [|auto].
  intros H Hle. apply IH; [exact H | lia].
Qed.

(** Output that is no event touches neither the terminal nor the events. *)
Lemma print_quiet {A} (f : A → output) l w :
  (∀ a, event_of (f a) = None) →
  tty_input (foldl (λ w a, printf (f a) w) w l) = tty_input w ∧
  reads (foldl (λ w a, printf (f a) w) w l) = reads w ∧
  events (stdout (foldl (λ w a, printf (f a) w) w l)) = events (stdout w).
Proof.
  intros Hf. revert w. induction l as [|a l IH]; intros w; cbn [foldl]; [auto|].
  destruct (IH (printf (f a) w)) as (-> & -> & ->).
  rewrite events_printf, Hf, app_nil_r. auto.
Qed.

Lemma print_size_and_ruler_frame w :
  tty_input (print_size_and_ruler w) = tty_input w ∧
  reads (print_size_and_ruler w) = reads w ∧
  events (stdout (print_size_and_ruler w)) = events (stdout w).
Proof.
  unfold print_size_and_ruler. destruct (get_console_size w) as [rows columns].
  rewrite events_printf. cbn [tty_input reads printf event_of].
  destruct (print_quiet (λ i, out_ruler (ascii_of_nat (i mod 10 + 48)))
              (seq 0 (Z.to_nat (columns - 1))) (printf (out_text rows columns) w))
    as (-> & -> & ->); [reflexivity|].
  rewrite events_printf, !app_nil_r. auto.
Qed.

(** [main] returns, and what it returns is [EXIT_SUCCESS]. *)
Lemma main_terminates fuel w :
  (length (tty_input w) < fuel)%nat →
  ∃ w', main fuel w = Some (w', EXIT_SUCCESS).
Proof.
  intros Hlt. unfold main.
  destruct (main_loop_terminates fuel NUL (print_size_and_ruler w)) as [w' ->];
    [|eauto].
  destruct (print_size_and_ruler_frame w) as (-> & _). exact Hlt.
Qed.

(** ** The key map *)

Lemma virtual_key_entries_NoDup : NoDup virtual_key_entries.*1.
Proof. apply (bool_decide_unpack _). vm_compute. exact I. Qed.

(** The map holds the entries of the initializer list and nothing else. *)
Lemma virtual_key_lookup s vk :
  virtual_key_map !! s = Some vk ↔ (s, vk) ∈ virtual_key_entries.
Proof.
  symmetry. apply elem_of_list_to_map, virtual_key_entries_NoDup.
Qed.

(** A property of every entry holds of whatever a lookup finds. *)
Lemma virtual_key_ind (P : string → vkey_t → Prop) :
  Forall (λ e, P e.1 e.2) virtual_key_entries →
  ∀ s vk, virtual_key_map !! s = Some vk → P s vk.
Proof.
  intros HP s vk Hl. apply virtual_key_lookup in Hl.
  rewrite Forall_forall in HP. exact (HP _ Hl).
Qed.

Lemma virtual_key_not_none s vk : virtual_key_map !! s = Some vk → vk ≠ none.
Proof.
  revert s vk. apply virtual_key_ind. unfold virtual_key_entries.
  repeat (apply Forall_cons_2; [discriminate|]). apply Forall_nil_2.
Qed.

(** ** Strings *)

Lemma string_length_app (s1 s2 : string) :
  String.length (s1 +:+ s2) = (String.length s1 + String.length s2)%nat.
Proof. induction s1 as [|a s1 IH]; simpl; [reflexivity|]. rewrite IH. reflexivity. Qed.

Lemma list_ascii_of_string_app (s1 s2 : string) :
  String.list_ascii_of_string (s1 +:+ s2) =
  String.list_ascii_of_string s1 ++ String.list_ascii_of_string s2.
Proof. induction s1 as [|a s1 IH]; simpl; [reflexivity|]. rewrite IH. reflexivity. Qed.

(** A buffer that ends in NULs yields no more characters than were stored
    before them. *)
Lemma c_str_padded data k :
  (String.length (c_str (data ++ replicate k NUL)) ≤ length data)%nat.
Proof.
  induction data as [|b data IH]; simpl.
  - destruct k; simpl; lia.
  - destruct (Ascii.eqb b NUL); simpl; lia.
Qed.

(** The characters at and after the first NUL are not part of the string. *)
Lemma c_str_nul pre l :
  NUL ∉ pre → c_str (pre ++ NUL :: l) = String.string_of_list_ascii pre.
Proof.
  induction pre as [|b pre IH]; intros Hn; simpl; [reflexivity|].
  apply not_elem_of_cons in Hn as [Hb Hpre].
  destruct (Ascii.eqb b NUL) eqn:E.
  - apply Ascii.eqb_eq in E. congruence.
  - rewrite IH by assumption. reflexivity.
Qed.

Lemma store_padded data :
  (length data ≤ 11)%nat →
  store (replicate 11 NUL) data = data ++ replicate (11 - length data) NUL.
Proof.
  intros H. unfold store. rewrite drop_replicate. reflexivity.
Qed.

Lemma bytes_read_app rs1 rs2 :
  bytes_read (rs1 ++ rs2) = bytes_read rs1 + bytes_read rs2.
Proof.
  unfold bytes_read. induction rs1 as [|r rs1 IH]; simpl; [reflexivity|].
  rewrite IH. lia.
Qed.

(** The accumulated sequence starts with the first byte. *)
Lemma key_sequence_of_head c inp :
  ∃ tail, (key_sequence_of c inp).1.1 = String c tail.
Proof.
  unfold key_sequence_of. destruct (Ascii.eqb c ESC_CHAR); [|eauto].
  destruct (deliver false 1 inp) as [[ret data] rest].
  destruct (ret mod 2 ^ 64 =? 1); [|eauto].
  destruct (deliver false 10 rest) as [[ret' data'] rest']. simpl. eauto.
Qed.

(** The program and the stream view agree on the accumulated sequence. *)
Lemma accumulate_key_sequence c w :
  (accumulate c w).2 = (key_sequence_of c (tty_input w)).1.1.
Proof.
  destruct (key_sequence_of c (tty_input w)) as [[ks rest] rs] eqn:Hk.
  destruct (accumulate_stream _ _ _ _ _ Hk) as (w' & -> & _). reflexivity.
Qed.

(** ** What is saved stays saved *)

Lemma enable_raw_mode_saved b m w :
  to_restore (enable_raw_mode b m w) = to_restore w ∧
  handlers_due (enable_raw_mode b m w) = handlers_due w.
Proof.
  unfold to_restore, handlers_due. rewrite enable_raw_mode_bset_exit.
  destruct (bset_exit w) eqn:H.
  - apply enable_raw_mode_again, H.
  - apply enable_raw_mode_first, H.
Qed.

Lemma read_raw_saved ptr b n w :
  to_restore (read_raw ptr b n w).1.1 = to_restore w ∧
  handlers_due (read_raw ptr b n w).1.1 = handlers_due w ∧
  bset_exit (read_raw ptr b n w).1.1 = true.
Proof.
  unfold read_raw, sys_read.
  destruct (deliver _ n _) as [[ret data] rest]. cbn [fst].
  destruct (enable_raw_mode_saved b immediate_no_echo w) as (Ht & Hh).
  pose proof (enable_raw_mode_bset_exit b immediate_no_echo w) as Hb.
  unfold to_restore, handlers_due in *.
  cbn [bset_exit orig_termios atexit_fns tty_termios set_tty log_read].
  rewrite Hb in *. auto.
Qed.

Lemma accumulate_saved c w :
  bset_exit w = true →
  to_restore (accumulate c w).1 = to_restore w ∧
  handlers_due (accumulate c w).1 = handlers_due w ∧
  bset_exit (accumulate c w).1 = true.
Proof.
  intros Hb. unfold accumulate. destruct (Ascii.eqb c ESC_CHAR); [|auto].
  pose proof (read_raw_saved [NUL] false 1 w) as (Ht1 & Hh1 & Hb1).
  destruct (read_raw [NUL] false 1 w) as [[w1 rdret] ptr]. cbn [fst] in *.
  destruct (rdret =? 1); [|auto].
  set (w2 := printf _ (printf _ w1)).
  pose proof (read_raw_saved (replicate 11 NUL) false 10 w2) as (Ht2 & Hh2 & Hb2).
  destruct (read_raw (replicate 11 NUL) false 10 w2) as [[w3 ret'] buffer].
  cbn [fst] in *. rewrite Ht2, Hh2. auto.
Qed.

Lemma dispatch_saved key_sequence w :
  to_restore (dispatch key_sequence w) = to_restore w ∧
  handlers_due (dispatch key_sequence w) = handlers_due w ∧
  bset_exit (dispatch key_sequence w) = bset_exit w.
Proof.
  assert (H : ∀ l w0,
    let w1 := foldl (λ w ch, printf (out_character ch) w) w0 l in
    to_restore w1 = to_restore w0 ∧ handlers_due w1 = handlers_due w0 ∧
    bset_exit w1 = bset_exit w0).
  { induction l as [|ch l IH]; intros w0; cbn [foldl]; [auto|].
    destruct (IH (printf (out_character ch) w0)) as (-> & -> & ->). auto. }
  unfold dispatch.
  destruct (virtual_key_map !! key_sequence) as [v|]; cbv beta iota.
  - destruct (decide (v ≠ none)); [auto|].
    apply (H _ (printf (out_key_seq key_sequence) w)).
  - destruct (decide (none ≠ none)); [auto|]. apply H.
Qed.

Lemma next_event_saved c w :
  to_restore (next_event c w).1.1 = to_restore w ∧
  handlers_due (next_event c w).1.1 = handlers_due w ∧
  bset_exit (next_event c w).1.1 = true.
Proof.
  unfold next_event, loop_guard.
  pose proof (read_raw_saved [c] true 1 w) as (Ht1 & Hh1 & Hb1).
  destruct (read_raw [c] true 1 w) as [[w1 ret] ptr]. cbn [fst] in *.
  destruct (_ && _); [|auto]. cbn [fst]. unfold loop_body.
  pose proof (accumulate_saved (hd c ptr) w1 Hb1) as (Ht2 & Hh2 & Hb2).
  destruct (accumulate (hd c ptr) w1) as [w2 ks]. cbn [fst] in *.
  destruct (dispatch_saved ks w2) as (-> & -> & ->).
  rewrite Ht2, Hh2. auto.
Qed.

Lemma main_loop_saved fuel c w w' :
  main_loop fuel c w = Some w' →
  to_restore w' = to_restore w ∧ handlers_due w' = handlers_due w ∧
  bset_exit w' = true.
Proof.
  revert c w. induction fuel as [|fuel IH]; intros c w; [discriminate|].
  cbn [main_loop]. pose proof (next_event_saved c w) as (Ht & Hh & Hb).
  destruct (next_event c w) as [[w1 c1] go]. cbn [fst] in *.
  destruct go.
  - intros H. destruct (IH _ _ H) as (-> & -> & ->). auto.
  - intros [= <-]. auto.
Qed.

(** Whatever the input, when [main] returns the terminal has the settings
    the process found, the handler was registered once in all the calls of
    [enable_raw_mode], and the handlers run at exit leave the settings as
    they are. *)
Lemma main_restores_the_terminal fuel t inp rows columns w' rc :
  main fuel (start t inp rows columns) = Some (w', rc) →
  tty_termios w' = t ∧
  atexit_fns w' = [fn_disable_raw_mode] ∧
  tty_termios (run_atexit w') = t.
Proof.
  unfold main. set (w0 := print_size_and_ruler (start t inp rows columns)).
  assert (H0 : to_restore w0 = t ∧ handlers_due w0 = [fn_disable_raw_mode]).
  { subst w0. unfold print_size_and_ruler.
    destruct (get_console_size _) as [r c].
    assert (H : ∀ l w1,
      let w2 := foldl (λ w i, printf (out_ruler (ascii_of_nat (i mod 10 + 48))) w) w1 l in
      to_restore w2 = to_restore w1 ∧ handlers_due w2 = handlers_due w1).
    { induction l as [|i l IH]; intros w1; cbn [foldl]; [auto|].
      destruct (IH (printf (out_ruler (ascii_of_nat (i mod 10 + 48))) w1))
        as (-> & ->). auto. }
    match goal with |- context [foldl ?f ?w1 ?l] =>
      destruct (H l w1) as (Ht & Hh) end.
    unfold to_restore, handlers_due in *.
    cbn [bset_exit orig_termios atexit_fns tty_termios printf] in *.
    rewrite Ht, Hh. auto. }
  destruct (main_loop fuel NUL w0) as [w1|] eqn:Hl; [|discriminate].
  destruct (main_loop_saved _ _ _ _ Hl) as (Ht & Hh & Hb).
  destruct H0 as (Ht0 & Hh0). rewrite Ht0 in Ht. rewrite Hh0 in Hh.
  unfold to_restore in Ht. unfold handlers_due in Hh. rewrite Hb in Ht, Hh.
  intros [= <- _]. unfold run_atexit, disable_raw_mode.
  cbn [tty_termios atexit_fns tcsetattr set_tty]. rewrite Hh.
  cbn [reverse rev_append foldl call_exit_fn]. auto.
Qed.

(** * The claims *)

(** ** Unmapped sequences *)

(** C1, as the program has it: when the accumulated [key_sequence] has no
    entry in the key map, the turn dispatches one character event for every
    byte of the sequence, in order. The first of them carries the first byte
    [c]; the bytes after it are dispatched too, not discarded. *)
Theorem unmapped_sequence_dispatches_every_byte c w w1 key_sequence :
  accumulate c w = (w1, key_sequence) →
  virtual_key_map !! key_sequence = None →
  ∃ tail,
    key_sequence = String c tail ∧
    events (stdout (loop_body c w)) =
      events (stdout w) ++
      Character c :: (Character <$> String.list_ascii_of_string tail).
Proof.
  intros Ha Hnone.
  destruct (key_sequence_of_head c (tty_input w)) as [tail Htail].
  rewrite <- accumulate_key_sequence, Ha in Htail. simpl in Htail.
  exists tail. split; [exact Htail|].
  destruct (key_sequence_of c (tty_input w)) as [[ks rest] rs] eqn:Hk.
  destruct (accumulate_stream _ _ _ _ _ Hk) as (w' & Ha' & _ & _ & He).
  rewrite Ha in Ha'. injection Ha' as <- <-.
  unfold loop_body. rewrite Ha.
  destruct (dispatch_stream key_sequence w1) as (_ & _ & ->).
  rewrite He. unfold dispatch_events. rewrite Hnone, Htail. reflexivity.
Qed.

(** The turn that reads ESC, [ and Z in one burst. *)
Lemma unmapped_sequence_dispatches_every_byte_witness :
  let w := (loop_guard NUL (start cooked (keys (esc "[Z")) 24 80)).1.1 in
  accumulate ESC_CHAR w = ((accumulate ESC_CHAR w).1, esc "[Z") ∧
  virtual_key_map !! esc "[Z" = None ∧
  ∃ tail,
    esc "[Z" = String ESC_CHAR tail ∧
    events (stdout (loop_body ESC_CHAR w)) =
      events (stdout w) ++
      Character ESC_CHAR :: (Character <$> String.list_ascii_of_string tail).
Proof.
  intros w.
  assert (Ha : accumulate ESC_CHAR w = ((accumulate ESC_CHAR w).1, esc "[Z"))
    by (vm_compute; reflexivity).
  assert (Hn : virtual_key_map !! esc "[Z" = None) by (vm_compute; reflexivity).
  split; [exact Ha|]. split; [exact Hn|].
  exact (unmapped_sequence_dispatches_every_byte ESC_CHAR w _ _ Ha Hn).
Defined.

(** C1 as it is stated fails: ESC, [ and Z arriving together are not
    resolved to the single event [Character ESC]; three character events
    are dispatched. *)
Lemma escape_bracket_Z_is_three_characters :
  let w := start cooked (keys (esc "[Z")) 24 80 in
  (accumulate ESC_CHAR (loop_guard NUL w).1.1).2 = esc "[Z" ∧
  virtual_key_map !! esc "[Z" = None ∧
  events (stdout (next_event NUL w).1.1) =
    [Character ESC_CHAR; Character "["; Character "Z"] ∧
  events (stdout (next_event NUL w).1.1) ≠ [Character ESC_CHAR].
Proof.
  intros w. repeat split; try (vm_compute; reflexivity).
  vm_compute. discriminate.
Qed.

(** ** The escape key alone *)

Lemma read_raw_inv ptr b n w w' k ptr' :
  read_raw ptr b n w = (w', k, ptr') →
  Z.of_nat n < 2 ^ 64 - 1 → 0 ≤ k < 2 ^ 64 - 1 →
  ∃ data rest,
    deliver b n (tty_input w) = (k, data, rest) ∧ ptr' = store ptr data ∧
    tty_input w' = rest ∧ reads w' = reads w ++ [ReadCall b n k] ∧
    events (stdout w') = events (stdout w).
Proof.
  intros Hr Hn Hk.
  destruct (deliver b n (tty_input w)) as [[ret data] rest] eqn:Hd.
  destruct (read_raw_spec ptr _ _ _ _ _ _ Hd) as (w1 & Hr1 & Hi & Hrs & He).
  rewrite Hr in Hr1. injection Hr1 as Hw Hret Hp. subst w1 ptr'.
  assert (ret = k) as -> by (eapply deliver_size_t; eauto).
  exists data, rest. auto.
Qed.

(** C2: when the blocking read delivers ESC and the timeout-bounded read of
    one byte that follows returns zero bytes, the turn dispatches the key
    ESC and nothing else, has taken one byte from the terminal, and makes no
    read after the one that returned zero. *)
Theorem lone_escape_is_the_escape_key c w w1 w2 ptr :
  read_raw [c] true 1 w = (w1, 1, [ESC_CHAR]) →
  read_raw [NUL] false 1 w1 = (w2, 0, ptr) →
  ∃ w', next_event c w = (w', ESC_CHAR, true) ∧
        events (stdout w') = events (stdout w) ++ [KeyPress ESC] ∧
        reads w' = reads w ++ [ReadCall true 1 1; ReadCall false 1 0] ∧
        reads w' = reads w2 ∧
        tty_input w' = tty_input w2 ∧
        bytes_read (reads w') = bytes_read (reads w) + 1.
Proof.
  intros H1 H2.
  destruct (read_raw_inv _ _ _ _ _ _ _ H1) as (d1 & r1 & _ & _ & _ & Hr1 & He1);
    [simpl; lia..|].
  destruct (read_raw_inv _ _ _ _ _ _ _ H2) as (d2 & r2 & _ & _ & _ & Hr2 & He2);
    [simpl; lia..|].
  unfold next_event, loop_guard. rewrite H1.
  cbn [hd Z.eqb Pos.eqb andb negb Ascii.eqb Bool.eqb].
  unfold loop_body, accumulate. cbn [Ascii.eqb Bool.eqb ESC_CHAR]. rewrite H2.
  cbn [Z.eqb].
  destruct (dispatch_stream (push_back "" ESC_CHAR) (printf (out_rdret 0) w2))
    as (Hi3 & Hr3 & He3).
  eexists. split; [reflexivity|].
  rewrite He3, Hr3, Hi3, events_printf. cbn [event_of reads printf tty_input].
  rewrite app_nil_r, He2, He1, Hr2, Hr1, <- app_assoc.
  repeat split; try reflexivity.
  rewrite !bytes_read_app. simpl. lia.
Qed.

Lemma lone_escape_is_the_escape_key_witness :
  let w := start cooked (Key ESC_CHAR :: Pause :: keys "a") 24 80 in
  let w1 := (read_raw [NUL] true 1 w).1.1 in
  let w2 := (read_raw [NUL] false 1 w1).1.1 in
  read_raw [NUL] true 1 w = (w1, 1, [ESC_CHAR]) ∧
  read_raw [NUL] false 1 w1 = (w2, 0, [NUL]) ∧
  ∃ w', next_event NUL w = (w', ESC_CHAR, true) ∧
        events (stdout w') = events (stdout w) ++ [KeyPress ESC] ∧
        reads w' = reads w ++ [ReadCall true 1 1; ReadCall false 1 0] ∧
        reads w' = reads w2 ∧
        tty_input w' = tty_input w2 ∧
        bytes_read (reads w') = bytes_read (reads w) + 1.
Proof.
  intros w w1 w2.
  assert (H1 : read_raw [NUL] true 1 w = (w1, 1, [ESC_CHAR]))
    by (vm_compute; reflexivity).
  assert (H2 : read_raw [NUL] false 1 w1 = (w2, 0, [NUL]))
    by (vm_compute; reflexivity).
  split; [exact H1|]. split; [exact H2|].
  exact (lone_escape_is_the_escape_key NUL w w1 w2 [NUL] H1 H2).
Defined.

(** ** The length of the accumulated sequence *)

(** C3, as the program has it: the sequence accumulated in one turn has at
    most 12 bytes, the first byte, [immediate_next] and up to 10 bytes of
    the last read; 11 is the size of the buffer of that read, which keeps
    one byte for the terminator. *)
Theorem key_sequence_at_most_12_bytes c w :
  (String.length (accumulate c w).2 ≤ 12)%nat.
Proof.
  rewrite accumulate_key_sequence. unfold key_sequence_of.
  destruct (Ascii.eqb c ESC_CHAR); [|simpl; lia].
  destruct (deliver false 1 (tty_input w)) as [[ret data] rest].
  destruct (ret mod 2 ^ 64 =? 1); [|simpl; lia].
  destruct (deliver false 10 rest) as [[ret' data'] rest'] eqn:Hd.
  cbn [fst snd]. unfold push_back. rewrite !string_length_app.
  assert (Hlen : (length data' ≤ 10)%nat).
  { destruct (deliver_ret _ _ _ _ _ _ Hd) as [[_ ->]|[_ H]]; simpl; lia. }
  rewrite store_padded by lia.
  pose proof (c_str_padded data' (11 - length data')). simpl. lia.
Qed.

(** C3 as it is stated fails: ESC, [ and ten digits arriving together are
    accumulated into a sequence of 12 bytes. *)
Lemma key_sequence_of_12_bytes :
  let w := (loop_guard NUL (start cooked (keys (esc "[0123456789")) 24 80)).1.1 in
  (accumulate ESC_CHAR w).2 = esc "[0123456789" ∧
  String.length (accumulate ESC_CHAR w).2 = 12%nat ∧
  ¬ (String.length (accumulate ESC_CHAR w).2 ≤ 11)%nat.
Proof.
  intros w.
  assert (H : (accumulate ESC_CHAR w).2 = esc "[0123456789")
    by (vm_compute; reflexivity).
  rewrite H. repeat split. simpl. lia.
Qed.

(** ** NUL bytes in the last read *)

(** C10: when the read after ESC returned one byte [b] and the read of up
    to 10 bytes that follows stores bytes with a NUL among them, the bytes
    at and after the first NUL do not reach [key_sequence], although the
    read has taken them from the terminal: the sequence is ESC, [b] and the
    bytes before the NUL, whatever the read returned as its count. *)
Theorem nul_cuts_the_sequence w w1 b ret pre post rest :
  read_raw [NUL] false 1 w = (w1, 1, [b]) →
  deliver false 10 (tty_input w1) = (ret, pre ++ NUL :: post, rest) →
  NUL ∉ pre →
  ∃ w2, accumulate ESC_CHAR w =
          (w2, String ESC_CHAR (String b (String.string_of_list_ascii pre))) ∧
        tty_input w2 = rest ∧
        reads w2 = reads w1 ++ [ReadCall false 10 ret] ∧
        bytes_read (reads w2) =
          bytes_read (reads w1) + Z.of_nat (length (pre ++ NUL :: post)).
Proof.
  intros H1 Hd Hpre. unfold accumulate.
  cbn [Ascii.eqb Bool.eqb ESC_CHAR]. rewrite H1. cbn [Z.eqb Pos.eqb hd].
  set (w' := printf _ (printf _ w1)).
  assert (Hd' : deliver false 10 (tty_input w') = (ret, pre ++ NUL :: post, rest))
    by exact Hd.
  destruct (read_raw_spec (replicate 11 NUL) _ _ _ _ _ _ Hd')
    as (w2 & -> & Hi & Hr & _).
  exists w2. split; [|split; [exact Hi|split; [exact Hr|]]].
  - f_equal. unfold store. rewrite <- app_assoc. simpl.
    rewrite c_str_nul by exact Hpre. reflexivity.
  - change (reads w') with (reads w1) in Hr. rewrite Hr, bytes_read_app.
    destruct (deliver_ret _ _ _ _ _ _ Hd) as [[_ Hnil]|[-> _]].
    + destruct pre; discriminate.
    + simpl. lia.
Qed.

Lemma nul_cuts_the_sequence_witness :
  let w := start cooked
             (Key "[" :: Key "A" :: Key NUL :: Key "B" :: Pause :: keys "c")
             24 80 in
  let w1 := (read_raw [NUL] false 1 w).1.1 in
  read_raw [NUL] false 1 w = (w1, 1, ["["%char]) ∧
  deliver false 10 (tty_input w1) =
    (3, ["A"%char] ++ NUL :: ["B"%char], Pause :: keys "c") ∧
  (NUL ∉ ["A"%char]) ∧
  ∃ w2, accumulate ESC_CHAR w = (w2, esc "[A") ∧
        tty_input w2 = Pause :: keys "c" ∧
        reads w2 = reads w1 ++ [ReadCall false 10 3] ∧
        bytes_read (reads w2) = bytes_read (reads w1) + 3.
Proof.
  intros w w1.
  assert (H1 : read_raw [NUL] false 1 w = (w1, 1, ["["%char]))
    by (vm_compute; reflexivity).
  assert (H2 : deliver false 10 (tty_input w1) =
                 (3, ["A"%char] ++ NUL :: ["B"%char], Pause :: keys "c"))
    by (vm_compute; reflexivity).
  assert (H3 : NUL ∉ ["A"%char])
    by (intros H; apply list_elem_of_singleton in H; discriminate H).
  split; [exact H1|]. split; [exact H2|]. split; [exact H3|].
  exact (nul_cuts_the_sequence w w1 "[" 3 ["A"%char] ["B"%char] _ H1 H2 H3).
Defined.

(** ** Sequences of the key map *)

(** Every sequence of the initializer list, arriving in one burst, is read
    whole in one turn and looked up as it is. *)
Lemma virtual_key_entries_turn :
  Forall (λ e, ∀ c rest, idle rest →
            let t := turn c (keys e.1 ++ rest) in
            tr_go t = true ∧ tr_events t = [KeyPress e.2] ∧
            bytes_read (tr_reads t) = Z.of_nat (String.length e.1))
         virtual_key_entries.
Proof.
  unfold virtual_key_entries.
  repeat (apply Forall_cons_2;
          [intros c rest [->|[rest' ->]]; vm_compute; repeat split|]).
  apply Forall_nil_2.
Qed.

(** C4: a sequence that is a key of the map is resolved to the key press
    the map gives for it, by the one lookup of [dispatch], be it of one byte
    or of several; and when its bytes arrive in one burst, the turn
    accumulates exactly that sequence, dispatches that key press and takes
    exactly the bytes of the sequence from the terminal. *)
Theorem table_sequence_resolves_to_its_key s vk :
  virtual_key_map !! s = Some vk →
  (∀ w, events (stdout (dispatch s w)) = events (stdout w) ++ [KeyPress vk]) ∧
  (∀ c w rest,
     tty_input w = keys s ++ rest → idle rest →
     ∃ w' c', next_event c w = (w', c', true) ∧
              events (stdout w') = events (stdout w) ++ [KeyPress vk] ∧
              bytes_read (reads w') =
                bytes_read (reads w) + Z.of_nat (String.length s)).
Proof.
  intros Hl. split.
  - intros w. destruct (dispatch_stream s w) as (_ & _ & ->).
    unfold dispatch_events. rewrite Hl.
    rewrite decide_True by (eapply virtual_key_not_none; eassumption).
    reflexivity.
  - intros c w rest Hin Hidle.
    pose proof (virtual_key_ind
                  (λ s vk, ∀ c rest, idle rest →
                     let t := turn c (keys s ++ rest) in
                     tr_go t = true ∧ tr_events t = [KeyPress vk] ∧
                     bytes_read (tr_reads t) = Z.of_nat (String.length s))
                  virtual_key_entries_turn s vk Hl c rest Hidle)
      as (Hgo & Hev & Hb).
    destruct (next_event_stream c w) as (w' & Hn & _ & Hr & He).
    rewrite Hin in *. rewrite Hgo in Hn. rewrite Hev in He.
    exists w', (tr_c (turn c (keys s ++ rest))).
    split; [exact Hn|]. split; [exact He|].
    rewrite Hr, bytes_read_app, Hb. reflexivity.
Qed.

(** The up arrow: ESC, [ and A in one burst. *)
Lemma table_sequence_resolves_to_its_key_witness :
  virtual_key_map !! esc "[A" = Some UP_ARROW ∧
  (∀ w, events (stdout (dispatch (esc "[A") w)) =
        events (stdout w) ++ [KeyPress UP_ARROW]) ∧
  (∀ c w rest,
     tty_input w = keys (esc "[A") ++ rest → idle rest →
     ∃ w' c', next_event c w = (w', c', true) ∧
              events (stdout w') = events (stdout w) ++ [KeyPress UP_ARROW] ∧
              bytes_read (reads w') = bytes_read (reads w) + 3).
Proof.
  assert (H : virtual_key_map !! esc "[A" = Some UP_ARROW)
    by (vm_compute; reflexivity).
  split; [exact H|].
  exact (table_sequence_resolves_to_its_key (esc "[A") UP_ARROW H).
Defined.

(** The keys of one byte go through the same lookup. *)
Lemma single_byte_keys :
  virtual_key_map !! String "010" "" = Some ENTER ∧
  virtual_key_map !! String "009" "" = Some TAB ∧
  virtual_key_map !! String "127" "" = Some BACKSPACE ∧
  virtual_key_map !! esc "" = Some ESC.
Proof. repeat split; vm_compute; reflexivity. Qed.

(** ** The entries of the key map *)

Lemma dispatch_events_keys key_sequence vk :
  KeyPress vk ∈ dispatch_events key_sequence →
  virtual_key_map !! key_sequence = Some vk.
Proof.
  unfold dispatch_events.
  destruct (virtual_key_map !! key_sequence) as [v|].
  - destruct (decide (v ≠ none)).
    + intros H%list_elem_of_singleton. congruence.
    + intros H%elem_of_nil. destruct H.
  - intros H%list_elem_of_fmap. destruct H as (ch & Hch & _). discriminate.
Qed.

Lemma turn_events_keys c inp vk :
  KeyPress vk ∈ tr_events (turn c inp) →
  ∃ key_sequence, virtual_key_map !! key_sequence = Some vk.
Proof.
  unfold turn. destruct (deliver true 1 inp) as [[ret data] rest].
  destruct (_ && _).
  - destruct (key_sequence_of _ rest) as [[ks rest'] rs]. cbn [tr_events].
    intros H%dispatch_events_keys. eauto.
  - cbn [tr_events]. intros H%elem_of_nil. destruct H.
Qed.

(** C5: the key map holds exactly the 22 entries that §4.2 enumerates, one
    per key; F1, F10, F11 and F12 are values of [vkey_t] that no entry
    carries, so no turn of the loop, on any input, dispatches one of them
    (nor the value [none]). *)
Theorem key_map_entries_and_unreachable_keys :
  (∀ s vk, virtual_key_map !! s = Some vk ↔ (s, vk) ∈ sequence_table_spec) ∧
  size virtual_key_map = 22%nat ∧
  (∀ s vk, virtual_key_map !! s = Some vk → vk ∉ [none; F1; F10; F11; F12]) ∧
  (∀ c w, ∃ w' c' go evs,
     next_event c w = (w', c', go) ∧
     events (stdout w') = events (stdout w) ++ evs ∧
     ∀ vk, vk ∈ [none; F1; F10; F11; F12] → KeyPress vk ∉ evs).
Proof.
  assert (Hvals : ∀ s vk, virtual_key_map !! s = Some vk →
                          vk ∉ [none; F1; F10; F11; F12]).
  { apply virtual_key_ind. unfold virtual_key_entries.
    repeat (apply Forall_cons_2;
            [cbn [snd]; intros H;
             repeat (apply elem_of_cons in H as [H|H]; [discriminate H|]);
             apply elem_of_nil in H; exact H|]).
    apply Forall_nil_2. }
  split; [exact virtual_key_lookup|]. split; [|split; [exact Hvals|]].
  - unfold virtual_key_map. rewrite map_size_list_to_map.
    + reflexivity.
    + exact virtual_key_entries_NoDup.
  - intros c w. destruct (next_event_stream c w) as (w' & Hn & _ & _ & He).
    do 4 eexists. split; [exact Hn|]. split; [exact He|].
    intros vk Hvk Hin. apply turn_events_keys in Hin as [ks Hks].
    exact (Hvals _ _ Hks Hvk).
Qed.

(** ** Failing and empty reads *)

Lemma dispatch_events_nonempty a tail : dispatch_events (String a tail) ≠ [].
Proof.
  unfold dispatch_events.
  destruct (virtual_key_map !! String a tail) as [v|] eqn:Hl.
  - rewrite decide_True by (eapply virtual_key_not_none; eassumption).
    discriminate.
  - discriminate.
Qed.

(** The reads of the body and what they lead to. *)
Lemma key_sequence_of_reads c inp :
  let '(key_sequence, _, rs) := key_sequence_of c inp in
  dispatch_events key_sequence ≠ [] ∧
  (rs = [] ∨
   (∃ ret2, rs = [ReadCall false 1 ret2] ∧ ret2 ≠ 1 ∧
            dispatch_events key_sequence = [KeyPress ESC]) ∨
   (∃ ret3, rs = [ReadCall false 1 1; ReadCall false 10 ret3])).
Proof.
  unfold key_sequence_of. destruct (Ascii.eqb c ESC_CHAR) eqn:Hc.
  2:{ split; [apply dispatch_events_nonempty | auto]. }
  apply Ascii.eqb_eq in Hc. subst c.
  destruct (deliver false 1 inp) as [[ret data] rest] eqn:Hd1.
  destruct (ret mod 2 ^ 64 =? 1) eqn:Hret.
  - apply Z.eqb_eq in Hret.
    assert (ret = 1) as ->
      by (eapply deliver_size_t; [exact Hd1|simpl; lia..|exact Hret]).
    destruct (deliver false 10 rest) as [[ret' data'] rest'].
    split; [apply dispatch_events_nonempty | eauto].
  - split; [apply dispatch_events_nonempty|].
    right. left. exists ret. split; [reflexivity|]. split.
    + intros ->. discriminate Hret.
    + vm_compute. reflexivity.
Qed.

(** C6: a turn has no error outcome. It ends the loop only when the
    blocking read of the first byte did not return one byte (it failed with
    -1, or the input was at its end) or when the byte is q; a failing first
    read does end it. A timeout-bounded read that returns zero bytes, or
    fails, is an ordinary outcome: the turn goes on and dispatches the key
    ESC. No read is repeated: after the blocking read of one byte there is
    at most one poll for one byte and, only when that returned one byte, one
    poll for up to 10 bytes. *)
Theorem reads_fail_or_time_out_without_error c w :
  ∃ w' c' go ret1 rs evs,
    next_event c w = (w', c', go) ∧
    reads w' = reads w ++ ReadCall true 1 ret1 :: rs ∧
    events (stdout w') = events (stdout w) ++ evs ∧
    (rs = [] ∨
     (∃ ret2, rs = [ReadCall false 1 ret2] ∧ ret2 ≠ 1) ∨
     (∃ ret3, rs = [ReadCall false 1 1; ReadCall false 10 ret3])) ∧
    (go = false → (ret1 ≠ 1 ∨ c' = "q"%char) ∧ rs = [] ∧ evs = []) ∧
    (ret1 = -1 → go = false) ∧
    (go = true → ret1 = 1 ∧ evs ≠ []) ∧
    (∀ ret2, rs = [ReadCall false 1 ret2] → go = true ∧ evs = [KeyPress ESC]).
Proof.
  destruct (next_event_stream c w) as (w' & Hn & _ & Hr & He).
  revert Hn Hr He. unfold turn.
  destruct (deliver true 1 (tty_input w)) as [[ret data] rest] eqn:Hd.
  set (c' := hd c (store [c] data)).
  destruct (ret mod 2 ^ 64 =? 1) eqn:Hret; cbn [andb].
  2:{ cbn [tr_c tr_go tr_events tr_rest tr_reads]. intros Hn Hr He.
      exists w', c', false, ret, [], []. repeat split; auto; try discriminate.
      left. intros ->. discriminate Hret. }
  apply Z.eqb_eq in Hret.
  assert (ret = 1) as ->
    by (eapply deliver_size_t; [exact Hd|simpl; lia..|exact Hret]).
  destruct (Ascii.eqb c' "q") eqn:Hq; cbn [negb].
  { cbn [tr_c tr_go tr_events tr_rest tr_reads]. intros Hn Hr He.
    exists w', c', false, 1, [], []. repeat split; auto; try discriminate.
    right. apply Ascii.eqb_eq. exact Hq. }
  pose proof (key_sequence_of_reads c' rest) as Hk.
  destruct (key_sequence_of c' rest) as [[ks rest'] rs].
  destruct Hk as (Hne & Hrs).
  cbn [tr_c tr_go tr_events tr_rest tr_reads]. intros Hn Hr He.
  exists w', c', true, 1, rs, (dispatch_events ks).
  split; [exact Hn|]. split; [exact Hr|]. split; [exact He|].
  split; [|split; [discriminate|split; [discriminate|split; [auto|]]]].
  - destruct Hrs as [->|[(ret2 & -> & H2 & _)|(ret3 & ->)]]; eauto.
  - intros ret2 ->. split; [reflexivity|].
    destruct Hrs as [[=]|[(ret2' & _ & _ & Hev)|(ret3 & [=])]]. exact Hev.
Qed.

(** ** The sentinel *)


Lemma disable_raw_mode_frame w :
  reads (disable_raw_mode w) = reads w ∧
  stdout (disable_raw_mode w) = stdout w.
Proof. split; reflexivity. Qed.






(** ** Entering raw mode twice *)

(** key_code.cpp: the second call of [enable_raw_mode] finds [bset_exit]
    set; the handler is registered once and [orig_termios] keeps the
    settings from before the first call. *)
Lemma enable_raw_mode_twice b1 m1 b2 m2 w :
  bset_exit w = false →
  atexit_fns (enable_raw_mode b2 m2 (enable_raw_mode b1 m1 w)) =
    atexit_fns w ++ [fn_disable_raw_mode] ∧
  orig_termios (enable_raw_mode b2 m2 (enable_raw_mode b1 m1 w)) =
    tty_termios w.
Proof.
  intros H.
  destruct (enable_raw_mode_first b1 m1 w H) as (Ho & Ha).
  destruct (enable_raw_mode_again b2 m2 (enable_raw_mode b1 m1 w)
              (enable_raw_mode_bset_exit b1 m1 w)) as (-> & ->).
  auto.
Qed.

(** C8 on raw_keyboard.h: its [enable_raw_mode] has no guard. Two calls
    register the handler twice and leave in [orig_termios] the settings the
    first call made, not those from before it; on a cooked terminal the
    saved [c_lflag] has lost [ECHO] and [ICANON], and [disable_raw_mode]
    then leaves the terminal without them. *)
Theorem raw_keyboard_h_enable_twice m1 m2 w :
  let w1 := RawKeyboardH.enable_raw_mode m1 w in
  let w2 := RawKeyboardH.enable_raw_mode m2 w1 in
  atexit_fns w2 = atexit_fns w ++ [fn_disable_raw_mode; fn_disable_raw_mode] ∧
  orig_termios w2 = tty_termios w1 ∧
  (let w0 := start cooked [] 24 80 in
   let w2 := RawKeyboardH.enable_raw_mode immediate_no_echo
               (RawKeyboardH.enable_raw_mode immediate_no_echo w0) in
   atexit_fns w2 = [fn_disable_raw_mode; fn_disable_raw_mode] ∧
   c_lflag (orig_termios w2) = 0x8a31 ∧
   orig_termios w2 ≠ tty_termios w0 ∧
   tty_termios (RawKeyboardH.disable_raw_mode w2) ≠ tty_termios w0).
Proof.
  cbv zeta. split; [|split].
  - unfold RawKeyboardH.enable_raw_mode. cbn [atexit_fns tcsetattr set_tty atexit set_orig_termios].
    rewrite <- app_assoc. reflexivity.
  - reflexivity.
  - split; [reflexivity|]. split; [reflexivity|].
    split; intros H; apply (f_equal c_lflag) in H; vm_compute in H; discriminate H.
Qed.

(** ** Entering raw mode and leaving it *)

(** C9: from a process that has not entered raw mode before, whatever the
    settings of the terminal, [enable_raw_mode] followed by
    [disable_raw_mode] leaves the terminal with the settings it had before
    [enable_raw_mode], every field of them. *)
Theorem enter_then_restore b m w :
  bset_exit w = false →
  tty_termios (disable_raw_mode (enable_raw_mode b m w)) = tty_termios w.
Proof.
  intros H. unfold disable_raw_mode. cbn [tty_termios tcsetattr set_tty].
  apply (enable_raw_mode_first b m w H).
Qed.

Lemma enter_then_restore_witness :
  bset_exit (start cooked (keys "a") 24 80) = false ∧
  tty_termios (disable_raw_mode
                 (enable_raw_mode false immediate_no_echo_ignore_signals
                    (start cooked (keys "a") 24 80))) = cooked.
Proof.
  split; [reflexivity|].
  exact (enter_then_restore false immediate_no_echo_ignore_signals
           (start cooked (keys "a") 24 80) eq_refl).
Defined.

(** ** Examples *)

(** A failing blocking read ends the loop; [main] still returns
    [EXIT_SUCCESS]. *)
Example first_read_fails :
  ∃ w', main 1 (start cooked [Fault] 24 80) = Some (w', EXIT_SUCCESS) ∧
        reads w' = [ReadCall true 1 (-1)] ∧ events (stdout w') = [].
Proof. eexists. split; [vm_compute; reflexivity|]. split; reflexivity. Qed.

(** A failing poll after ESC is taken for the escape key. *)
Example poll_after_escape_fails :
  let w := start cooked [Key ESC_CHAR; Fault] 24 80 in
  (next_event NUL w).2 = true ∧
  reads (next_event NUL w).1.1 = [ReadCall true 1 1; ReadCall false 1 (-1)] ∧
  events (stdout (next_event NUL w).1.1) = [KeyPress ESC].
Proof. repeat split; vm_compute; reflexivity. Qed.

(** Enter, tab, backspace and F5 from the terminal. *)
Example enter_tab_backspace_F5 :
  ∃ w', main 5 (start cooked
                  (Key "010" :: Key "009" :: Key "127" :: keys (esc "[15~"))
                  24 80) = Some (w', EXIT_SUCCESS) ∧
        events (stdout w') =
          [KeyPress ENTER; KeyPress TAB; KeyPress BACKSPACE; KeyPress F5] ∧
        bytes_read (reads w') = 8 ∧
        tty_termios w' = cooked.
Proof.
  eexists. split; [vm_compute; reflexivity|]. repeat split.
Qed.

(** An ordinary byte is dispatched as a character. *)
Example ordinary_character :
  events (stdout (next_event NUL (start cooked (keys "x") 24 80)).1.1) =
    [Character "x"].
Proof. vm_compute. reflexivity. Qed.

(** * Further properties *)

(** ** The flag words *)

(** [flags &= ~mask] clears the bits of the mask and keeps every other bit
    of a 32-bit flag word. *)
Lemma clear_flags_testbit flags mask i :
  0 ≤ flags < 2 ^ 32 → 0 ≤ i →
  Z.testbit (clear_flags flags mask) i =
  Z.testbit flags i && negb (Z.testbit mask i).
Proof.
  intros Hf Hi. unfold clear_flags. rewrite Z.land_spec.
  destruct (Z_lt_le_dec i 32) as [Hlt|Hge].
  - rewrite Z.mod_pow2_bits_low by lia. rewrite Z.lnot_spec by lia. reflexivity.
  - rewrite Z.mod_pow2_bits_high by lia.
    rewrite <- (Z.mod_small flags (2 ^ 32)) by lia.
    rewrite Z.mod_pow2_bits_high by lia. reflexivity.
Qed.

(** A flag that is part of the mask is off afterwards. *)
Lemma clear_flags_land flags mask flag :
  0 ≤ flags < 2 ^ 32 →
  (∀ i, 0 ≤ i → Z.testbit flag i = true → Z.testbit mask i = true) →
  Z.land (clear_flags flags mask) flag = 0.
Proof.
  intros Hf Hm. apply Z.bits_inj'. intros i Hi.
  rewrite Z.land_spec, clear_flags_testbit, Z.bits_0 by assumption.
  destruct (Z.testbit flag i) eqn:E; [|apply andb_false_r].
  rewrite (Hm i Hi E). cbn [negb]. rewrite andb_false_r. reflexivity.
Qed.

Lemma clear_flags_twice flags mask :
  clear_flags (clear_flags flags mask) mask = clear_flags flags mask.
Proof.
  unfold clear_flags. rewrite <- Z.land_assoc, Z.land_diag. reflexivity.
Qed.

(** Eight-bit characters, set after the size bits were cleared, survive a
    second round of the same. *)
Lemma cflag_cs8_twice cflag :
  Z.lor (clear_flags (Z.lor (clear_flags cflag (Z.lor CSIZE PARENB)) CS8)
           (Z.lor CSIZE PARENB)) CS8 =
  Z.lor (clear_flags cflag (Z.lor CSIZE PARENB)) CS8.
Proof.
  unfold clear_flags. rewrite Z.land_lor_distr_l, <- Z.land_assoc, Z.land_diag.
  replace (Z.land CS8 (Z.lnot (Z.lor CSIZE PARENB) mod 2 ^ 32)) with 0
    by reflexivity.
  rewrite Z.lor_0_r. reflexivity.
Qed.

Lemma cc_insert_twice (a b a' b' : Z) (cc : vec Z NCCS) :
  vinsert VTIME a (vinsert VMIN b (vinsert VTIME a' (vinsert VMIN b' cc))) =
  vinsert VTIME a (vinsert VMIN b cc).
Proof.
  apply vec_eq. intros i.
  destruct (decide (i = VTIME)) as [->|Ht]; [rewrite !vlookup_insert; reflexivity|].
  rewrite !(vlookup_insert_ne VTIME i) by (intros H; apply Ht; symmetry; exact H).
  destruct (decide (i = VMIN)) as [->|Hm]; [rewrite !vlookup_insert; reflexivity|].
  rewrite !(vlookup_insert_ne VMIN i) by (intros H; apply Hm; symmetry; exact H).
  rewrite !(vlookup_insert_ne VTIME i) by (intros H; apply Ht; symmetry; exact H).
  rewrite !(vlookup_insert_ne VMIN i) by (intros H; apply Hm; symmetry; exact H).
  reflexivity.
Qed.

(** ** key_code.cpp: what [enable_raw_mode] does to the settings *)

(** X1: in the mode [immediate_no_echo], [enable_raw_mode] changes nothing of
    the settings of the terminal but this: [ECHO] and [ICANON] are cleared in
    [c_lflag], and [c_cc[VMIN]], [c_cc[VTIME]] become 1, 0 to wait for input
    and 0, 1 to poll. The input flags, output flags, control flags, every
    other bit of [c_lflag] and every other control character stay. *)
Theorem immediate_no_echo_changes_only_echo_icanon_vmin_vtime b w :
  0 ≤ c_lflag (tty_termios w) < 2 ^ 32 →
  let t := tty_termios w in
  let t' := tty_termios (enable_raw_mode b immediate_no_echo w) in
  c_iflag t' = c_iflag t ∧ c_oflag t' = c_oflag t ∧ c_cflag t' = c_cflag t ∧
  Z.land (c_lflag t') ECHO = 0 ∧ Z.land (c_lflag t') ICANON = 0 ∧
  (∀ i, 0 ≤ i → Z.testbit (Z.lor ECHO ICANON) i = false →
        Z.testbit (c_lflag t') i = Z.testbit (c_lflag t) i) ∧
  c_cc t' !!! VMIN = (if b then 1 else 0) ∧
  c_cc t' !!! VTIME = (if b then 0 else 1) ∧
  (∀ j, j ≠ VMIN → j ≠ VTIME → c_cc t' !!! j = c_cc t !!! j).
Proof.
  intros Hf t t'.
  assert (Ht' : t' = with_c_cc
            (if b then vinsert VTIME 0 (vinsert VMIN 1 (c_cc t))
             else vinsert VTIME 1 (vinsert VMIN 0 (c_cc t)))
            (with_c_lflag (clear_flags (c_lflag t) (Z.lor ECHO ICANON)) t)).
  { subst t t'. unfold enable_raw_mode.
    destruct (bset_exit w), b; reflexivity. }
  rewrite Ht'. cbn [c_iflag c_oflag c_cflag c_lflag c_cc with_c_cc with_c_lflag].
  assert (Hbit : ∀ i, 0 ≤ i →
    Z.testbit (clear_flags (c_lflag t) (Z.lor ECHO ICANON)) i =
    Z.testbit (c_lflag t) i && negb (Z.testbit (Z.lor ECHO ICANON) i))
    by (intros i Hi; apply clear_flags_testbit; assumption).
  split; [reflexivity|]. split; [reflexivity|]. split; [reflexivity|].
  split; [|split; [|split; [|split; [|split]]]].
  - apply clear_flags_land; [exact Hf|].
    intros i Hi E. rewrite Z.lor_spec, E. reflexivity.
  - apply clear_flags_land; [exact Hf|].
    intros i Hi E. rewrite Z.lor_spec, E. apply orb_true_r.
  - intros i Hi Hm. rewrite Hbit, Hm by exact Hi. apply andb_true_r.
  - destruct b; (rewrite vlookup_insert_ne by apply VTIME_ne_VMIN);
      apply vlookup_insert.
  - destruct b; apply vlookup_insert.
  - intros j Hm Ht.
    destruct b; rewrite !vlookup_insert_ne by (intros H; symmetry in H; tauto);
      reflexivity.
Qed.

Lemma immediate_no_echo_changes_only_echo_icanon_vmin_vtime_witness :
  let w := start cooked (keys "a") 24 80 in
  0 ≤ c_lflag (tty_termios w) < 2 ^ 32 ∧
  c_lflag (tty_termios (enable_raw_mode false immediate_no_echo w)) = 0x8a31 ∧
  Z.land (c_lflag (tty_termios (enable_raw_mode false immediate_no_echo w))) ECHO = 0.
Proof.
  intros w.
  assert (H : 0 ≤ c_lflag (tty_termios w) < 2 ^ 32) by (vm_compute; split; [discriminate|reflexivity]).
  split; [exact H|]. split; [reflexivity|].
  exact (proj1 (proj2 (proj2 (proj2
    (immediate_no_echo_changes_only_echo_icanon_vmin_vtime false w H))))).
Defined.

(** X2: the settings [enable_raw_mode] leaves depend on the settings it
    found only as far as a first call has not fixed them already: a second
    call in the same mode gives the settings that this call alone would have
    given, so the settings do not drift over the calls that [read_raw]
    makes, and calling twice with the same arguments is calling once. *)
Theorem enable_raw_mode_last_call_wins b1 b2 m w :
  tty_termios (enable_raw_mode b2 m (enable_raw_mode b1 m w)) =
  tty_termios (enable_raw_mode b2 m w).
Proof.
  assert (Hs : ∀ b w0, tty_termios (enable_raw_mode b m w0) =
    let raw := match m with
               | immediate_no_echo =>
                   with_c_lflag (clear_flags (c_lflag (tty_termios w0))
                                   (Z.lor ECHO ICANON)) (tty_termios w0)
               | immediate_no_echo_ignore_signals => cfmakeraw (tty_termios w0)
               end in
    if b then with_c_cc (vinsert VTIME 0 (vinsert VMIN 1 (c_cc raw))) raw
    else with_c_cc (vinsert VTIME 1 (vinsert VMIN 0 (c_cc raw))) raw).
  { intros b w0. unfold enable_raw_mode. destruct (bset_exit w0); reflexivity. }
  rewrite (Hs b2 (enable_raw_mode b1 m w)), (Hs b1 w), (Hs b2 w).
  generalize (tty_termios w). intros t. cbv zeta.
  destruct m, b1, b2;
    cbn [cfmakeraw with_c_cc with_c_lflag c_iflag c_oflag c_cflag c_lflag c_cc];
    unfold with_c_cc, with_c_lflag, cfmakeraw, set_flags;
    cbn [c_iflag c_oflag c_cflag c_lflag c_cc];
    rewrite ?clear_flags_twice, ?cc_insert_twice, ?cflag_cs8_twice;
    reflexivity.
Qed.

(** ** key_code.cpp: what [read_raw] returns and takes *)

Lemma bytes_of_skip_pauses inp : bytes_of (skip_pauses inp) = bytes_of inp.
Proof. induction inp as [|[b| |] inp IH]; simpl; auto. Qed.

Lemma bytes_of_received count inp :
  bytes_of inp =
  received count inp ++ bytes_of (drop (length (received count inp)) inp).
Proof.
  revert inp. induction count as [|count IH]; intros [|[b| |] inp];
    try reflexivity.
  cbn [received length drop app]. change (bytes_of (Key b :: inp)) with (b :: bytes_of inp).
  rewrite <- IH. reflexivity.
Qed.

(** No byte is lost or reordered by a read. *)
Lemma deliver_bytes blocking count inp ret data rest :
  deliver blocking count inp = (ret, data, rest) →
  bytes_of inp = data ++ bytes_of rest.
Proof.
  unfold deliver.
  assert (Hb : bytes_of (if blocking then skip_pauses inp else inp) = bytes_of inp)
    by (destruct blocking; [apply bytes_of_skip_pauses | reflexivity]).
  destruct (if blocking then skip_pauses inp else inp) as [|[b| |] inp'];
    intros [= <- <- <-]; rewrite <- Hb; try reflexivity.
  apply bytes_of_received.
Qed.

(** A blocking read returns 0 only at the end of the input. *)
Lemma deliver_blocking_zero count inp data rest :
  deliver true count inp = (0, data, rest) → (0 < count)%nat → rest = [].
Proof.
  unfold deliver. pose proof (length_skip_pauses inp).
  destruct (skip_pauses inp) as [|[b| |] inp'] eqn:E.
  - intros [= <- <-]. reflexivity.
  - destruct count as [|count]; [lia|]. cbn [received length].
    intros H0. exfalso. apply (f_equal (λ p, p.1.1)) in H0. cbn [fst] in H0. lia.
  - exfalso. clear H. induction inp as [|[b| |] inp IH]; try discriminate.
    apply IH. exact E.
  - intros H0. apply (f_equal (λ p, p.1.1)) in H0. discriminate H0.
Qed.

(** X3: [read_raw] stores at most [ptr_size] bytes at the start of the
    buffer and changes nothing behind them, so a buffer of at least
    [ptr_size] bytes is never overrun. It returns the number of bytes
    stored, or the largest [std::size_t] when the read failed, in which case
    the buffer is untouched. The bytes stored are the next bytes of the
    input, in order, and the input that remains holds all the others: no
    byte is lost between reads. A blocking call returns 0 only when the
    input has ended. *)
Theorem read_raw_stores_the_next_bytes ptr b n w :
  (n ≤ length ptr)%nat → Z.of_nat n < 2 ^ 64 - 1 →
  ∃ w' ret data,
    read_raw ptr b n w = (w', ret, data ++ drop (length data) ptr) ∧
    (length data ≤ n)%nat ∧
    length (data ++ drop (length data) ptr) = length ptr ∧
    (ret = Z.of_nat (length data) ∨ ret = 2 ^ 64 - 1 ∧ data = []) ∧
    bytes_of (tty_input w) = data ++ bytes_of (tty_input w') ∧
    (b = true → (0 < n)%nat → ret = 0 → tty_input w' = []).
Proof.
  intros Hn Hsz.
  destruct (deliver b n (tty_input w)) as [[ret data] rest] eqn:Hd.
  destruct (read_raw_spec ptr _ _ _ _ _ _ Hd) as (w' & Hr & Hi & _ & _).
  assert (Hlen : (length data ≤ n)%nat).
  { destruct (deliver_ret _ _ _ _ _ _ Hd) as [[_ ->]|[_ H]]; simpl; lia. }
  exists w', (ret mod 2 ^ 64), data. split; [exact Hr|]. split; [exact Hlen|].
  split; [|split; [|split]].
  - rewrite length_app, length_drop. lia.
  - destruct (deliver_ret _ _ _ _ _ _ Hd) as [[-> ->]|[-> _]].
    + right. split; reflexivity.
    + left. apply Z.mod_small. lia.
  - rewrite Hi. eapply deliver_bytes. exact Hd.
  - intros -> Hpos Hz. rewrite Hi.
    assert (ret = 0) as -> by (eapply deliver_size_t; [exact Hd|lia..|exact Hz]).
    eapply deliver_blocking_zero; eassumption.
Qed.

Lemma read_raw_stores_the_next_bytes_witness :
  let w := start cooked (Pause :: keys "abc") 24 80 in
  (2 ≤ length [NUL; NUL; NUL])%nat ∧ Z.of_nat 2 < 2 ^ 64 - 1 ∧
  ∃ w' ret data,
    read_raw [NUL; NUL; NUL] true 2 w =
      (w', ret, data ++ drop (length data) [NUL; NUL; NUL]) ∧
    (length data ≤ 2)%nat ∧
    length (data ++ drop (length data) [NUL; NUL; NUL]) = 3%nat ∧
    (ret = Z.of_nat (length data) ∨ ret = 2 ^ 64 - 1 ∧ data = []) ∧
    bytes_of (tty_input w) = data ++ bytes_of (tty_input w') ∧
    (true = true → (0 < 2)%nat → ret = 0 → tty_input w' = []).
Proof.
  intros w.
  assert (H1 : (2 ≤ length [NUL; NUL; NUL])%nat) by (simpl; lia).
  assert (H2 : Z.of_nat 2 < 2 ^ 64 - 1) by (vm_compute; reflexivity).
  split; [exact H1|]. split; [exact H2|].
  exact (read_raw_stores_the_next_bytes [NUL; NUL; NUL] true 2 w H1 H2).
Defined.

(** ** key_code.cpp: ordinary bytes *)

(** The keys of one byte are ESC, DEL, LF and TAB. *)
Lemma single_byte_lookup b :
  b ∉ [ESC_CHAR; "127"%char; "010"%char; "009"%char] →
  virtual_key_map !! String b "" = None.
Proof.
  intros Hb. rewrite !not_elem_of_cons in Hb.
  destruct Hb as (H1 & H2 & H3 & H4 & _).
  destruct (virtual_key_map !! String b "") as [v|] eqn:E; [|reflexivity].
  exfalso. apply virtual_key_lookup in E. unfold virtual_key_entries, esc in E.
  repeat (apply elem_of_cons in E as [E|E]; [by simplify_eq|]).
  apply elem_of_nil in E. exact E.
Qed.

Lemma deliver_first_byte inp b rest :
  skip_pauses inp = Key b :: rest → deliver true 1 inp = (1, [b], rest).
Proof. intros H. unfold deliver. rewrite H. reflexivity. Qed.

Lemma turn_ordinary c inp b rest :
  skip_pauses inp = Key b :: rest →
  b ∉ [ESC_CHAR; "q"%char; "127"%char; "010"%char; "009"%char] →
  turn c inp = TurnResult b true [Character b] rest [ReadCall true 1 1].
Proof.
  intros Hi Hb. rewrite !not_elem_of_cons in Hb.
  destruct Hb as (H1 & H2 & H3 & H4 & H5 & _).
  unfold turn. rewrite (deliver_first_byte _ _ _ Hi).
  change (hd c (store [c] [b])) with b.
  change (1 mod 2 ^ 64 =? 1) with true.
  apply Ascii.eqb_neq in H2. rewrite H2. cbn [andb negb].
  unfold key_sequence_of. apply Ascii.eqb_neq in H1. rewrite H1.
  unfold dispatch_events. change (push_back "" b) with (String b "").
  rewrite single_byte_lookup; [reflexivity|].
  apply Ascii.eqb_neq in H1. rewrite !not_elem_of_cons. repeat split; auto.
  apply not_elem_of_nil.
Qed.

(** X4: a first byte that is neither ESC, nor q, nor one of DEL, LF and TAB
    is dispatched as that one character. The turn makes the one blocking
    read and no other, so what follows the byte stays in the input for the
    next turn. *)
Theorem ordinary_byte_is_one_character c w b rest :
  skip_pauses (tty_input w) = Key b :: rest →
  b ∉ [ESC_CHAR; "q"%char; "127"%char; "010"%char; "009"%char] →
  ∃ w', next_event c w = (w', b, true) ∧
        events (stdout w') = events (stdout w) ++ [Character b] ∧
        tty_input w' = rest ∧
        reads w' = reads w ++ [ReadCall true 1 1].
Proof.
  intros Hi Hb. destruct (next_event_stream c w) as (w' & Hn & Hin & Hr & He).
  rewrite (turn_ordinary _ _ _ _ Hi Hb) in *.
  cbn [tr_c tr_go tr_rest tr_reads tr_events] in *. eauto.
Qed.

Lemma ordinary_byte_is_one_character_witness :
  let w := start cooked (Pause :: keys "xyz") 24 80 in
  skip_pauses (tty_input w) = Key "x" :: keys "yz" ∧
  ("x"%char ∉ [ESC_CHAR; "q"%char; "127"%char; "010"%char; "009"%char]) ∧
  ∃ w', next_event NUL w = (w', "x"%char, true) ∧
        events (stdout w') = events (stdout w) ++ [Character "x"] ∧
        tty_input w' = keys "yz" ∧
        reads w' = reads w ++ [ReadCall true 1 1].
Proof.
  intros w.
  assert (H1 : skip_pauses (tty_input w) = Key "x" :: keys "yz") by reflexivity.
  assert (H2 : "x"%char ∉ [ESC_CHAR; "q"%char; "127"%char; "010"%char; "009"%char]).
  { rewrite !not_elem_of_cons. repeat split; try discriminate. apply not_elem_of_nil. }
  split; [exact H1|]. split; [exact H2|].
  exact (ordinary_byte_is_one_character NUL w "x" (keys "yz") H1 H2).
Defined.

(** ** key_code.cpp: bytes that follow a key sequence at once *)

Lemma deliver_poll_received count b inp :
  deliver false count (Key b :: inp) =
  (Z.of_nat (length (received count (Key b :: inp))),
   received count (Key b :: inp),
   drop (length (received count (Key b :: inp))) (Key b :: inp)).
Proof. reflexivity. Qed.

Lemma deliver_poll_one b inp : deliver false 1 (Key b :: inp) = (1, [b], inp).
Proof. reflexivity. Qed.

(** The last read takes the rest of a burst into the sequence, up to its
    count. *)
Lemma c_str_burst u b rest count l :
  NUL ∉ u → b ≠ NUL → (length u < count)%nat →
  ∃ tail, c_str (received count ((Key <$> u) ++ Key b :: rest) ++ l) =
          String.string_of_list_ascii u +:+ String b tail.
Proof.
  revert count. induction u as [|x u IH]; intros count Hu Hb Hlen.
  - destruct count as [|count]; [simpl in Hlen; lia|].
    cbn [fmap list_fmap app received c_str].
    apply Ascii.eqb_neq in Hb. rewrite Hb. eauto.
  - destruct count as [|count]; [simpl in Hlen; lia|].
    apply not_elem_of_cons in Hu as [Hx Hu].
    destruct (IH count Hu Hb ltac:(simpl in Hlen; lia)) as [tail Ht].
    exists tail. cbn [fmap list_fmap app received c_str] in *.
    assert (Hx' : x ≠ NUL) by (intros ->; apply Hx; reflexivity).
    apply Ascii.eqb_neq in Hx'. rewrite Hx'.
    rewrite Ht. reflexivity.
Qed.

Lemma turn_escape_burst c x2 u b rest :
  NUL ∉ u → b ≠ NUL → (length u < 10)%nat →
  ∃ tail,
    let t := turn c (Key ESC_CHAR :: Key x2 :: (Key <$> u) ++ Key b :: rest) in
    tr_c t = ESC_CHAR ∧ tr_go t = true ∧
    tr_events t =
      dispatch_events
        (String ESC_CHAR
           (String x2 (String.string_of_list_ascii u +:+ String b tail))).
Proof.
  intros Hu Hb Hlen.
  destruct (c_str_burst u b rest 10
              (drop (length (received 10 ((Key <$> u) ++ Key b :: rest)))
                    (replicate 11 NUL)) Hu Hb Hlen) as [tail Ht].
  exists tail. unfold turn.
  rewrite (deliver_first_byte
             (Key ESC_CHAR :: Key x2 :: (Key <$> u) ++ Key b :: rest) ESC_CHAR
             (Key x2 :: (Key <$> u) ++ Key b :: rest) eq_refl).
  change (hd c (store [c] [ESC_CHAR])) with ESC_CHAR.
  change ((1 mod 2 ^ 64 =? 1) && negb (Ascii.eqb ESC_CHAR "q")) with true.
  cbv iota. unfold key_sequence_of.
  change (Ascii.eqb ESC_CHAR ESC_CHAR) with true. cbv iota.
  rewrite (deliver_poll_one x2 ((Key <$> u) ++ Key b :: rest)).
  change (1 mod 2 ^ 64 =? 1) with true. cbv iota beta.
  assert (Hd : ∃ y l, (Key <$> u) ++ Key b :: rest = Key y :: l)
    by (destruct u; simpl; eauto).
  destruct Hd as (y & l & Hd). rewrite Hd. rewrite deliver_poll_received.
  rewrite <- Hd. cbv iota beta. cbn [tr_c tr_go tr_events].
  split; [reflexivity|]. split; [reflexivity|].
  unfold store at 2. rewrite Ht. reflexivity.
Qed.

(** No key of the map continues another: of its keys of several bytes each
    is ESC, a byte and less than 10 bytes without a NUL, and nothing that
    starts with such a key and goes on is a key. *)
Lemma multi_byte_keys_end_there :
  Forall (λ e, (1 < String.length e.1)%nat →
               ∃ x2 s', e.1 = String ESC_CHAR (String x2 s') ∧
                        (NUL ∉ String.list_ascii_of_string s') ∧
                        (String.length s' < 10)%nat ∧
                        ∀ b tail, virtual_key_map !! (e.1 +:+ String b tail) = None)
         virtual_key_entries.
Proof.
  unfold virtual_key_entries, esc.
  repeat (apply Forall_cons_2;
    [cbn [fst String.length]; intros Hlen;
     first
       [ exfalso; lia
       | eexists _, _; split; [reflexivity|]; split;
         [ cbn [String.list_ascii_of_string];
           repeat (apply not_elem_of_cons; split; [discriminate|]);
           apply not_elem_of_nil
         | split;
           [ cbn [String.length]; lia
           | intros b tail;
             destruct (virtual_key_map !! _) as [v|] eqn:E; [|reflexivity];
             exfalso; apply virtual_key_lookup in E;
             unfold virtual_key_entries, esc in E;
             repeat (apply elem_of_cons in E as [E|E]; [discriminate E|]);
             apply elem_of_nil in E; exact E ] ] ]
    |]).
  apply Forall_nil_2.
Qed.

(** X5: when a key sequence of several bytes is followed at once by another
    byte (a second key press in the same burst, as under key repeat), the
    read of up to 10 bytes takes that byte into the sequence too; the
    sequence is then no key of the map, and the turn dispatches no key press
    but one character for each byte it accumulated. No key of several bytes
    is a proper prefix of a key of the map: nothing that starts with such a
    key and goes on is a key. (The key of the one byte ESC is the start of
    all of them, and is left out.) *)
Theorem key_followed_at_once_is_not_recognised s vk c w b rest :
  virtual_key_map !! s = Some vk → (1 < String.length s)%nat → b ≠ NUL →
  tty_input w = keys s ++ Key b :: rest →
  (∀ b' tail', virtual_key_map !! (s +:+ String b' tail') = None) ∧
  ∃ w' tail,
    next_event c w = (w', ESC_CHAR, true) ∧
    events (stdout w') =
      events (stdout w) ++
      (Character <$> String.list_ascii_of_string (s +:+ String b tail)).
Proof.
  intros Hl Hlen Hb Hin.
  destruct (virtual_key_ind
              (λ s _, (1 < String.length s)%nat →
                 ∃ x2 s', s = String ESC_CHAR (String x2 s') ∧
                          (NUL ∉ String.list_ascii_of_string s') ∧
                          (String.length s' < 10)%nat ∧
                          ∀ b tail, virtual_key_map !! (s +:+ String b tail) = None)
              multi_byte_keys_end_there s vk Hl Hlen)
    as (x2 & s' & -> & Hnul & Hlen' & Hnone).
  split; [exact Hnone|].
  destruct (turn_escape_burst c x2 (String.list_ascii_of_string s') b rest Hnul Hb)
    as (tail & Hc & Hgo & Hev).
  { rewrite <- (String.string_of_list_ascii_of_string s') in Hlen'.
    revert Hlen'. generalize (String.list_ascii_of_string s'). intros u.
    assert (H : String.length (String.string_of_list_ascii u) = length u)
      by (induction u; simpl; auto).
    rewrite H. auto. }
  destruct (next_event_stream c w) as (w' & Hn & _ & _ & He).
  rewrite Hin in *.
  change (keys (String ESC_CHAR (String x2 s')) ++ Key b :: rest)
    with (Key ESC_CHAR :: Key x2 ::
          (Key <$> String.list_ascii_of_string s') ++ Key b :: rest) in *.
  rewrite Hc, Hgo in Hn. rewrite Hev in He.
  rewrite String.string_of_list_ascii_of_string in He.
  exists w', tail. split; [exact Hn|]. rewrite He. f_equal.
  unfold dispatch_events.
  change (String ESC_CHAR (String x2 (s' +:+ String b tail)))
    with (String ESC_CHAR (String x2 s') +:+ String b tail).
  rewrite Hnone. reflexivity.
Qed.

(** Two presses of the up arrow in one burst. *)
Lemma key_followed_at_once_is_not_recognised_witness :
  let w := start cooked (keys (esc "[A") ++ Key ESC_CHAR :: keys "[A") 24 80 in
  virtual_key_map !! esc "[A" = Some UP_ARROW ∧
  (1 < String.length (esc "[A"))%nat ∧ ESC_CHAR ≠ NUL ∧
  tty_input w = keys (esc "[A") ++ Key ESC_CHAR :: keys "[A" ∧
  (∀ b' tail', virtual_key_map !! (esc "[A" +:+ String b' tail') = None) ∧
  ∃ w' tail,
    next_event NUL w = (w', ESC_CHAR, true) ∧
    events (stdout w') =
      events (stdout w) ++
      (Character <$>
         String.list_ascii_of_string (esc "[A" +:+ String ESC_CHAR tail)).
Proof.
  intros w.
  assert (H1 : virtual_key_map !! esc "[A" = Some UP_ARROW)
    by (vm_compute; reflexivity).
  assert (H2 : (1 < String.length (esc "[A"))%nat) by (simpl; lia).
  assert (H3 : ESC_CHAR ≠ NUL) by discriminate.
  assert (H4 : tty_input w = keys (esc "[A") ++ Key ESC_CHAR :: keys "[A")
    by reflexivity.
  split; [exact H1|]. split; [exact H2|]. split; [exact H3|]. split; [exact H4|].
  exact (key_followed_at_once_is_not_recognised
           (esc "[A") UP_ARROW NUL w ESC_CHAR (keys "[A") H1 H2 H3 H4).
Defined.

(** The six characters of the two up arrows. *)
Example two_up_arrows_in_one_burst :
  events (stdout (next_event NUL
    (start cooked (keys (esc "[A") ++ keys (esc "[A")) 24 80)).1.1) =
  Character <$> String.list_ascii_of_string (esc "[A" +:+ esc "[A").
Proof. vm_compute. reflexivity. Qed.

(** ** key_code.cpp: what [main] dispatches *)

Lemma skip_pauses_idemp inp : skip_pauses (skip_pauses inp) = skip_pauses inp.
Proof. induction inp as [|[b| |] inp IH]; simpl; auto. Qed.

(** The blocking read waits: idle time before the first byte of a turn
    changes nothing. *)
Lemma turn_skip_pauses c inp : turn c (skip_pauses inp) = turn c inp.
Proof. unfold turn, deliver. rewrite skip_pauses_idemp. reflexivity. Qed.

Lemma turn_same c inp1 inp2 :
  skip_pauses inp1 = skip_pauses inp2 → turn c inp1 = turn c inp2.
Proof.
  intros H. rewrite <- (turn_skip_pauses c inp1), H. apply turn_skip_pauses.
Qed.

Lemma turn_end c inp :
  skip_pauses inp = [] →
  tr_go (turn c inp) = false ∧ tr_events (turn c inp) = [].
Proof. intros H. unfold turn, deliver. rewrite H. split; reflexivity. Qed.

Lemma virtual_key_entries_typed :
  Forall (λ e, ∀ c rest,
            let t := turn c ((keys e.1 ++ [Pause]) ++ rest) in
            tr_go t = true ∧ tr_events t = [KeyPress e.2] ∧
            skip_pauses (tr_rest t) = skip_pauses rest)
         virtual_key_entries.
Proof.
  unfold virtual_key_entries.
  repeat (apply Forall_cons_2; [intros c rest; vm_compute; repeat split|]).
  apply Forall_nil_2.
Qed.

Lemma keystroke_turn k c rest :
  on_keyboard k →
  let t := turn c (typed k ++ rest) in
  tr_go t = true ∧ tr_events t = [meant k] ∧
  skip_pauses (tr_rest t) = skip_pauses rest.
Proof.
  destruct k as [s vk|b]; cbn [on_keyboard typed meant]; intros Hk.
  - exact (virtual_key_ind
             (λ s vk, ∀ c rest,
                let t := turn c ((keys s ++ [Pause]) ++ rest) in
                tr_go t = true ∧ tr_events t = [KeyPress vk] ∧
                skip_pauses (tr_rest t) = skip_pauses rest)
             virtual_key_entries_typed s vk Hk c rest).
  - cbv zeta. rewrite (turn_ordinary c ([Key b] ++ rest) b rest eq_refl Hk).
    repeat split.
Qed.

Lemma main_loop_typed ks :
  Forall on_keyboard ks →
  ∀ c w, skip_pauses (tty_input w) = skip_pauses (concat (typed <$> ks)) →
  ∃ w', main_loop (S (length ks)) c w = Some w' ∧
        events (stdout w') = events (stdout w) ++ (meant <$> ks).
Proof.
  induction 1 as [|k ks Hk Hks IH]; intros c w Hin.
  - destruct (next_event_stream c w) as (w' & Hn & _ & _ & He).
    destruct (turn_end c (tty_input w) Hin) as (Hgo & Hev).
    rewrite Hgo in Hn. rewrite Hev in He. cbn [main_loop length]. rewrite Hn.
    exists w'. split; [reflexivity|]. exact He.
  - destruct (next_event_stream c w) as (w' & Hn & Hi & _ & He).
    cbn [fmap list_fmap concat] in Hin.
    rewrite (turn_same c _ _ Hin) in Hn, Hi, He.
    destruct (keystroke_turn k c (concat (typed <$> ks)) Hk) as (Hgo & Hev & Hrest).
    rewrite Hgo in Hn. rewrite Hev in He. rewrite <- Hi in Hrest.
    destruct (IH (tr_c (turn c (typed k ++ concat (typed <$> ks)))) w' Hrest)
      as (w'' & Hm & He').
    exists w''. change (main_loop (S (length (k :: ks))) c w)
      with (let '(w, c, go) := next_event c w in
            if go then main_loop (S (length ks)) c w else Some w).
    rewrite Hn. split; [exact Hm|].
    rewrite He', He, <- app_assoc. reflexivity.
Qed.

(** X6: what is typed is what is dispatched. For every list of key presses,
    each either a key of the map, its sequence arriving in one burst and
    followed by idle time, or an ordinary byte (not ESC, q, DEL, LF or TAB),
    [main] dispatches exactly one event for each press, in order: the key
    press that the map gives, or the character. It needs one turn of the
    loop for each and one to find the input ended, and returns
    [EXIT_SUCCESS]. *)
Theorem typed_keys_are_dispatched_in_order ks t rows columns :
  Forall on_keyboard ks →
  ∃ w', main (S (length ks)) (start t (concat (typed <$> ks)) rows columns) =
          Some (w', EXIT_SUCCESS) ∧
        events (stdout w') = meant <$> ks.
Proof.
  intros Hks. unfold main.
  set (w0 := start t (concat (typed <$> ks)) rows columns).
  destruct (print_size_and_ruler_frame w0) as (Hi & _ & He).
  destruct (main_loop_typed ks Hks NUL (print_size_and_ruler w0)) as (w' & -> & He').
  { rewrite Hi. reflexivity. }
  eexists. split; [reflexivity|].
  destruct (disable_raw_mode_frame w') as (_ & ->). rewrite He', He. reflexivity.
Qed.

Lemma typed_keys_are_dispatched_in_order_witness :
  let ks := [Special (esc "[A") UP_ARROW; Plain "h"; Special (esc "") ESC;
             Special (String "010" "") ENTER; Plain "i";
             Special (esc "[15~") F5] in
  Forall on_keyboard ks ∧
  ∃ w', main 7 (start cooked (concat (typed <$> ks)) 24 80) =
          Some (w', EXIT_SUCCESS) ∧
        events (stdout w') =
          [KeyPress UP_ARROW; Character "h"; KeyPress ESC; KeyPress ENTER;
           Character "i"; KeyPress F5].
Proof.
  intros ks.
  assert (H : Forall on_keyboard ks).
  { repeat (apply Forall_cons_2;
      [first [ vm_compute; reflexivity
             | cbn [on_keyboard];
               repeat (apply not_elem_of_cons; split; [discriminate|]);
               apply not_elem_of_nil ]|]).
    apply Forall_nil_2. }
  split; [exact H|].
  exact (typed_keys_are_dispatched_in_order ks cooked 24 80 H).
Defined.

(** ** key_code.cpp: what the dispatch depends on *)

Lemma main_loop_same_input fuel :
  ∀ c w1 w2 w1',
    skip_pauses (tty_input w1) = skip_pauses (tty_input w2) →
    main_loop fuel c w1 = Some w1' →
    ∃ w2' evs rs,
      main_loop fuel c w2 = Some w2' ∧
      events (stdout w1') = events (stdout w1) ++ evs ∧
      events (stdout w2') = events (stdout w2) ++ evs ∧
      reads w1' = reads w1 ++ rs ∧ reads w2' = reads w2 ++ rs.
Proof.
  induction fuel as [|fuel IH]; intros c w1 w2 w1' Hin; [discriminate|].
  cbn [main_loop].
  destruct (next_event_stream c w1) as (v1 & Hn1 & Hi1 & Hr1 & He1).
  destruct (next_event_stream c w2) as (v2 & Hn2 & Hi2 & Hr2 & He2).
  rewrite <- (turn_same c _ _ Hin) in Hn2, Hi2, Hr2, He2.
  rewrite Hn1, Hn2.
  destruct (tr_go (turn c (tty_input w1))).
  - intros Hm.
    destruct (IH _ v1 v2 w1' ltac:(congruence) Hm)
      as (w2' & evs & rs & Hm2 & Ha & Hb & Hc & Hd).
    exists w2', (tr_events (turn c (tty_input w1)) ++ evs),
           (tr_reads (turn c (tty_input w1)) ++ rs).
    split; [exact Hm2|].
    rewrite Ha, Hb, Hc, Hd, He1, He2, Hr1, Hr2, <- !app_assoc. auto.
  - intros [= <-]. eauto 10.
Qed.

(** X7: what [main] dispatches and how it reads depend on the input alone,
    and on that only from its first byte on. Two runs whose inputs agree
    after the idle time they begin with dispatch the same events and make
    the same reads with the same results, whatever settings the terminal
    was found in and whatever the size of the window. *)
Theorem dispatch_depends_only_on_the_input
    fuel t1 t2 inp1 inp2 rows1 columns1 rows2 columns2 w1 rc :
  skip_pauses inp1 = skip_pauses inp2 →
  main fuel (start t1 inp1 rows1 columns1) = Some (w1, rc) →
  ∃ w2, main fuel (start t2 inp2 rows2 columns2) = Some (w2, rc) ∧
        events (stdout w2) = events (stdout w1) ∧
        reads w2 = reads w1.
Proof.
  intros Hin. unfold main.
  set (s1 := start t1 inp1 rows1 columns1).
  set (s2 := start t2 inp2 rows2 columns2).
  destruct (print_size_and_ruler_frame s1) as (Hi1 & Hr1 & He1).
  destruct (print_size_and_ruler_frame s2) as (Hi2 & Hr2 & He2).
  destruct (main_loop fuel NUL (print_size_and_ruler s1)) as [v1|] eqn:Hm;
    [|discriminate].
  intros [= <- <-].
  destruct (main_loop_same_input fuel NUL _ (print_size_and_ruler s2) v1
              ltac:(rewrite Hi1, Hi2; exact Hin) Hm)
    as (v2 & evs & rs & -> & Ha & Hb & Hc & Hd).
  eexists. split; [reflexivity|].
  destruct (disable_raw_mode_frame v1) as (-> & ->).
  destruct (disable_raw_mode_frame v2) as (-> & ->).
  rewrite Ha, Hb, Hc, Hd, He1, He2, Hr1, Hr2. auto.
Qed.

Lemma dispatch_depends_only_on_the_input_witness :
  let inp1 := keys (esc "[B") ++ Pause :: keys "ab" in
  let inp2 := Pause :: Pause :: inp1 in
  let w1 := disable_raw_mode
              (default (start cooked [] 0 0)
                 (main_loop 4 NUL (print_size_and_ruler (start cooked inp1 24 80)))) in
  skip_pauses inp1 = skip_pauses inp2 ∧
  main 4 (start cooked inp1 24 80) = Some (w1, EXIT_SUCCESS) ∧
  ∃ w2, main 4 (start zero_termios inp2 50 132) = Some (w2, EXIT_SUCCESS) ∧
        events (stdout w2) = events (stdout w1) ∧
        reads w2 = reads w1.
Proof.
  intros inp1 inp2 w1.
  assert (H1 : skip_pauses inp1 = skip_pauses inp2) by reflexivity.
  assert (H2 : main 4 (start cooked inp1 24 80) = Some (w1, EXIT_SUCCESS))
    by (vm_compute; reflexivity).
  split; [exact H1|]. split; [exact H2|].
  exact (dispatch_depends_only_on_the_input 4 cooked zero_termios inp1 inp2
           24 80 50 132 w1 EXIT_SUCCESS H1 H2).
Defined.

(** ** key_code.cpp: the work of one turn *)

Lemma string_length_list (s : string) :
  length (String.list_ascii_of_string s) = String.length s.
Proof. induction s as [|a s IH]; simpl; auto. Qed.

Lemma key_sequence_of_bounds c inp :
  (String.length (key_sequence_of c inp).1.1 ≤ 12)%nat ∧
  0 ≤ bytes_read (key_sequence_of c inp).2 ≤ 11.
Proof.
  unfold key_sequence_of. destruct (Ascii.eqb c ESC_CHAR); [|simpl; lia].
  destruct (deliver false 1 inp) as [[ret data] rest] eqn:Hd1.
  destruct (ret mod 2 ^ 64 =? 1) eqn:Hret.
  - apply Z.eqb_eq in Hret.
    assert (ret = 1) as ->
      by (eapply deliver_size_t; [exact Hd1|simpl; lia..|exact Hret]).
    destruct (deliver false 10 rest) as [[ret' data'] rest'] eqn:Hd2.
    cbn [fst snd]. unfold push_back. rewrite !string_length_app.
    assert (Hlen : (length data' ≤ 10)%nat ∧ -1 ≤ ret' ≤ 10).
    { destruct (deliver_ret _ _ _ _ _ _ Hd2) as [[-> ->]|[-> H]]; simpl; lia. }
    rewrite store_padded by lia.
    pose proof (c_str_padded data' (11 - length data')).
    unfold bytes_read. simpl. lia.
  - cbn [fst snd]. unfold bytes_read. simpl.
    destruct (deliver_ret _ _ _ _ _ _ Hd1) as [[-> _]|[-> H]]; lia.
Qed.

Lemma dispatch_events_shape key_sequence :
  (length (dispatch_events key_sequence) ≤ max 1 (String.length key_sequence))%nat ∧
  ((∃ vk, dispatch_events key_sequence = [KeyPress vk]) ∨
   (∃ l, dispatch_events key_sequence = Character <$> l)).
Proof.
  unfold dispatch_events. destruct (virtual_key_map !! key_sequence) as [v|].
  - destruct (decide (v ≠ none)).
    + split; [simpl; lia|]. left. eauto.
    + split; [simpl; lia|]. right. exists []. reflexivity.
  - rewrite length_fmap, string_length_list. split; [lia|]. right. eauto.
Qed.

(** X8: a turn of the loop does a bounded amount of work. It takes at most
    12 bytes from the terminal and dispatches at most 12 events, and what it
    dispatches is either one key press alone or characters alone, never a
    mix of both. *)
Theorem one_turn_is_bounded c w :
  ∃ w' c' go evs,
    next_event c w = (w', c', go) ∧
    events (stdout w') = events (stdout w) ++ evs ∧
    (length evs ≤ 12)%nat ∧
    ((∃ vk, evs = [KeyPress vk]) ∨ (∃ l, evs = Character <$> l)) ∧
    0 ≤ bytes_read (reads w') - bytes_read (reads w) ≤ 12.
Proof.
  destruct (next_event_stream c w) as (w' & Hn & _ & Hr & He).
  do 4 eexists. split; [exact Hn|]. split; [exact He|].
  rewrite Hr, bytes_read_app. clear Hn Hr He. unfold turn.
  destruct (deliver true 1 (tty_input w)) as [[ret data] rest] eqn:Hd.
  assert (Hret : -1 ≤ ret ≤ 1).
  { destruct (deliver_ret _ _ _ _ _ _ Hd) as [[-> _]|[-> H]]; lia. }
  destruct (_ && _).
  - pose proof (key_sequence_of_bounds (hd c (store [c] data)) rest) as (Hl & Hb).
    destruct (key_sequence_of _ rest) as [[ks rest'] rs]. cbn [fst snd] in *.
    cbn [tr_events tr_reads]. destruct (dispatch_events_shape ks) as (Hlen & Hsh).
    split; [lia|]. split; [exact Hsh|].
    change (bytes_read (ReadCall true 1 ret :: rs))
      with (Z.max 0 ret + bytes_read rs). lia.
  - cbn [tr_events tr_reads]. split; [simpl; lia|].
    split; [right; exists []; reflexivity|].
    unfold bytes_read. simpl. lia.
Qed.

(** ** key_code.cpp: the whole run *)

(** X9: [main] returns on every input and from every settings of the
    terminal, after at most one turn of the loop for each item of the input
    and one more; it returns [EXIT_SUCCESS], the terminal then has the
    settings the process found, the handler was registered exactly once over
    all the calls of [enable_raw_mode], and running the handlers at exit
    leaves those settings in place. *)
Theorem main_returns_with_the_terminal_restored t inp rows columns :
  ∃ w', main (S (length inp)) (start t inp rows columns) =
          Some (w', EXIT_SUCCESS) ∧
        tty_termios w' = t ∧
        atexit_fns w' = [fn_disable_raw_mode] ∧
        tty_termios (run_atexit w') = t.
Proof.
  destruct (main_terminates (S (length inp)) (start t inp rows columns))
    as [w' Hm]; [simpl; lia|].
  exists w'. split; [exact Hm|].
  exact (main_restores_the_terminal _ _ _ _ _ _ _ Hm).
Qed.

(** ** raw_keyboard.h: one call of [enable_raw_mode] *)

(** X10: in raw_keyboard.h one call of [enable_raw_mode] followed by
    [disable_raw_mode] gives the terminal the settings it had, from every
    state of the process. Unlike the function of key_code.cpp, this one
    leaves the control characters, [VMIN] and [VTIME] among them, and the
    control flags as it found them, and it discards the input that was
    received but not read. In both modes [ECHO] and [ICANON] are off
    afterwards. *)
Theorem raw_keyboard_h_enter_then_restore m w :
  let w1 := RawKeyboardH.enable_raw_mode m w in
  tty_termios (RawKeyboardH.disable_raw_mode w1) = tty_termios w ∧
  c_cc (tty_termios w1) = c_cc (tty_termios w) ∧
  c_cflag (tty_termios w1) = c_cflag (tty_termios w) ∧
  tty_input w1 = discard_received (tty_input w) ∧
  (0 ≤ c_lflag (tty_termios w) < 2 ^ 32 →
   Z.land (c_lflag (tty_termios w1)) (Z.lor ECHO ICANON) = 0).
Proof.
  cbv zeta. split; [reflexivity|]. split; [destruct m; reflexivity|].
  split; [destruct m; reflexivity|]. split; [reflexivity|].
  intros Hf. destruct m;
    cbn [RawKeyboardH.enable_raw_mode tty_termios tcsetattr set_tty c_lflag
         with_c_lflag atexit set_orig_termios orig_termios tcgetattr];
    apply clear_flags_land; try exact Hf;
    intros i Hi E; rewrite !Z.lor_spec in *;
    destruct (Z.testbit ECHO i), (Z.testbit ICANON i); try discriminate E;
    rewrite ?orb_true_r; reflexivity.
Qed.

(** ** key_code.cpp: the ruler *)

Lemma stdout_foldl_printf {A} (f : A → output) l w :
  stdout (foldl (λ w a, printf (f a) w) w l) = stdout w ++ (f <$> l).
Proof.
  revert w. induction l as [|a l IH]; intros w; cbn [foldl fmap list_fmap].
  - rewrite app_nil_r. reflexivity.
  - rewrite IH. cbn [stdout printf]. rewrite <- app_assoc. reflexivity.
Qed.

(** X11: [main] starts by printing the size of the window, as the two
    16-bit values of [get_console_size], and a ruler: one digit for each
    column but the last, the digit of column [i] being the last decimal
    digit of [i], then the star. Ruler and star together span the columns
    of the window; a window of no columns gets the star alone, the count of
    digits does not wrap around. *)
Theorem ruler_spans_the_window w :
  let rows := ws_row w mod 2 ^ 16 in
  let columns := ws_col w mod 2 ^ 16 in
  get_console_size w = (rows, columns) ∧
  0 ≤ rows < 2 ^ 16 ∧ 0 ≤ columns < 2 ^ 16 ∧
  ∃ digits,
    stdout (print_size_and_ruler w) =
      stdout w ++ out_text rows columns :: (out_ruler <$> digits) ++ [out_star] ∧
    length digits = Z.to_nat (columns - 1) ∧
    (∀ i ch, digits !! i = Some ch → ch = ascii_of_nat (48 + i mod 10)) ∧
    (1 ≤ columns → Z.of_nat (length digits) + 1 = columns) ∧
    (columns = 0 → digits = []).
Proof.
  cbv zeta. split; [reflexivity|].
  split; [apply Z.mod_pos_bound; reflexivity|].
  split; [apply Z.mod_pos_bound; reflexivity|].
  exists ((λ i, ascii_of_nat (i mod 10 + 48)) <$>
          seq 0 (Z.to_nat (ws_col w mod 2 ^ 16 - 1))).
  split; [|split; [|split; [|split]]].
  - unfold print_size_and_ruler, get_console_size. cbn [stdout printf].
    rewrite (stdout_foldl_printf (λ i, out_ruler (ascii_of_nat (i mod 10 + 48)))).
    cbn [stdout printf]. rewrite <- list_fmap_compose, <- !app_assoc. reflexivity.
  - rewrite length_fmap, length_seq. reflexivity.
  - intros i ch Hl. rewrite list_lookup_fmap in Hl.
    destruct (seq 0 _ !! i) as [j|] eqn:Hj; [|discriminate Hl].
    apply lookup_seq in Hj as [-> _]. injection Hl as <-.
    f_equal. simpl. lia.
  - intros H. rewrite length_fmap, length_seq. lia.
  - intros ->. reflexivity.
Qed.

(** ** key_code.cpp: ESC and a byte that is not a bracket *)

(** Every key of several bytes starts with ESC and an opening bracket. *)
Lemma escape_without_bracket_lookup b tail :
  b ≠ "["%char → virtual_key_map !! String ESC_CHAR (String b tail) = None.
Proof.
  intros Hb.
  destruct (virtual_key_map !! _) as [v|] eqn:E; [|reflexivity].
  exfalso. apply virtual_key_lookup in E. unfold virtual_key_entries, esc in E.
  repeat (apply elem_of_cons in E as [E|E]; [by simplify_eq|]).
  apply elem_of_nil in E. exact E.
Qed.

(** X12: when ESC is followed at once by a byte other than an opening
    bracket (as a terminal sends for a key pressed with Alt), the turn
    dispatches no key press: it dispatches the characters ESC, that byte and
    whatever the read of up to 10 bytes accumulated behind it. This holds of
    the byte q too, which ends the loop only as the first byte of a turn. *)
Theorem escape_then_other_byte_is_characters c w b rest :
  skip_pauses (tty_input w) = Key ESC_CHAR :: Key b :: rest →
  b ≠ "["%char →
  ∃ w' tail,
    next_event c w = (w', ESC_CHAR, true) ∧
    events (stdout w') =
      events (stdout w) ++
      Character ESC_CHAR :: Character b ::
      (Character <$> String.list_ascii_of_string tail).
Proof.
  intros Hin Hb.
  destruct (next_event_stream c w) as (w' & Hn & _ & _ & He).
  rewrite <- (turn_skip_pauses c (tty_input w)), Hin in Hn, He.
  revert Hn He. unfold turn.
  rewrite (deliver_first_byte (Key ESC_CHAR :: Key b :: rest) ESC_CHAR
             (Key b :: rest) eq_refl).
  change (hd c (store [c] [ESC_CHAR])) with ESC_CHAR.
  change ((1 mod 2 ^ 64 =? 1) && negb (Ascii.eqb ESC_CHAR "q")) with true.
  cbv iota. unfold key_sequence_of.
  change (Ascii.eqb ESC_CHAR ESC_CHAR) with true. cbv iota.
  rewrite deliver_poll_one. change (1 mod 2 ^ 64 =? 1) with true. cbv iota beta.
  destruct (deliver false 10 rest) as [[ret' data'] rest'].
  cbn [tr_c tr_go tr_events]. intros Hn He.
  exists w', (c_str (store (replicate 11 NUL) data')).
  split; [exact Hn|]. rewrite He. f_equal. unfold dispatch_events.
  change (push_back (push_back "" ESC_CHAR) (hd NUL (store [NUL] [b]))
            +:+ c_str (store (replicate 11 NUL) data'))
    with (String ESC_CHAR (String b (c_str (store (replicate 11 NUL) data')))).
  rewrite escape_without_bracket_lookup by exact Hb. reflexivity.
Qed.

Lemma escape_then_other_byte_is_characters_witness :
  let w := start cooked (Pause :: Key ESC_CHAR :: keys "qx") 24 80 in
  skip_pauses (tty_input w) = Key ESC_CHAR :: Key "q" :: keys "x" ∧
  "q"%char ≠ "["%char ∧
  ∃ w' tail,
    next_event NUL w = (w', ESC_CHAR, true) ∧
    events (stdout w') =
      events (stdout w) ++
      Character ESC_CHAR :: Character "q" ::
      (Character <$> String.list_ascii_of_string tail).
Proof.
  intros w.
  assert (H1 : skip_pauses (tty_input w) = Key ESC_CHAR :: Key "q" :: keys "x")
    by reflexivity.
  assert (H2 : "q"%char ≠ "["%char) by discriminate.
  split; [exact H1|]. split; [exact H2|].
  exact (escape_then_other_byte_is_characters NUL w "q" (keys "x") H1 H2).
Defined.
